(** * Adaptive workload placement: GreedyLB, RefineLB and the pattern detector

    A shallow embedding of

      - [src/schedulers/greedylb/scheduler.py]  (class [GreedyLBScheduler]),
      - [src/schedulers/refinelb/scheduler.py]  (class [RefineLBScheduler]),
      - [src/monitoring/pattern_detector.py]    (class [PatternDetector]),

    followed by the properties of the specification that concern them.

    Conventions of the embedding.

      - Python numbers ([int] and [float]) are exact rationals [Q]; results
        are compared with [==] ([Qeq]).  Rounding of IEEE doubles is not
        modelled.
      - A Python call that can raise returns an [Outcome]: [Returned v] or
        [Raised].  A [try ... except Exception] block becomes a [match] on
        the outcome of its body.
      - A Python [dict] with string keys is a [gmap string _].
      - The API server is a snapshot ([Cluster]) read by the list calls; the
        answers of the mutating calls (create binding, patch deployment) are
        given by an explicit oracle argument. *)

From Stdlib Require Import QArith Qminmax Qabs Lqa Ascii String.
From stdpp Require Import gmap strings list.

Local Open Scope Q_scope.

(** ** Outcomes of calls that may raise *)

Inductive Outcome (A : Type) : Type :=
| Returned (a : A)
| Raised.
Arguments Returned {A} a.
Arguments Raised {A}.

Definition bind_outcome {A B} (o : Outcome A) (k : A -> Outcome B) : Outcome B :=
  match o with
  | Returned a => k a
  | Raised => Raised
  end.

Notation "'let*' x ':=' o 'in' k" := (bind_outcome o (fun x => k))
  (at level 10, x name, o at level 100, k at level 200, only parsing).

(** [try: body except Exception: return d] *)
Definition except_return {A} (body : Outcome A) (d : A) : A :=
  match body with
  | Returned a => a
  | Raised => d
  end.

(** ** Python built-ins used by the source *)

Module Py.

(** Comparisons on numbers, as booleans. *)
Definition lt (x y : Q) : bool := negb (Qle_bool y x).
Definition gt (x y : Q) : bool := lt y x.
Definition eq (x y : Q) : bool := Qeq_bool x y.

(** [max(a, b)] and [abs(x)]. *)
Definition max (a b : Q) : Q := if lt a b then b else a.
Definition abs (x : Q) : Q := Qabs x.

(** [sum(xs)]: left fold from the integer 0. *)
Definition sum (xs : list Q) : Q := fold_left Qplus xs 0.

(** [len(xs)] as a number. *)
Definition len {A} (xs : list A) : Q := inject_Z (Z.of_nat (length xs)).

(** [s.endswith(suffix)]: some tail of [s] is [suffix]. *)
Fixpoint endswith (s suffix : string) : bool :=
  if String.eqb s suffix then true
  else match s with
       | EmptyString => false
       | String _ r => endswith r suffix
       end.

(** [s[:-n]] for [0 < n]: the first [len(s) - n] characters. *)
Definition drop_last (n : nat) (s : string) : string :=
  String.substring 0 (String.length s - n) s.

(** *** [float(s)] on decimal literals

    [float] is modelled on the decimal literals
    [[+-]? digits [. digits]? ([eE] [+-]? digits)?] (at least one digit in
    the mantissa), which is the number syntax of Kubernetes quantities.
    Every other string raises [ValueError].  Python's [float] further
    accepts surrounding white space, digit-group underscores and the
    words [inf] and [nan]; those inputs are outside this model. *)

Definition digit_of (c : ascii) : option Z :=
  let n := Z.of_nat (nat_of_ascii c) in
  if ((48 <=? n) && (n <=? 57))%Z then Some (n - 48)%Z else None.

(** Reads the longest run of digits: its value, its length, the rest. *)
Fixpoint read_digits (s : string) (acc : Z) (cnt : nat) : Z * nat * string :=
  match s with
  | EmptyString => (acc, cnt, s)
  | String c r =>
      match digit_of c with
      | Some d => read_digits r (10 * acc + d)%Z (S cnt)
      | None => (acc, cnt, s)
      end
  end.

(** Reads an optional sign: [true] for a minus. *)
Definition read_sign (s : string) : bool * string :=
  match s with
  | String "-" r => (true, r)
  | String "+" r => (false, r)
  | _ => (false, s)
  end.

(** Reads an optional exponent part; [None] when it is malformed. *)
Definition read_exponent (s : string) : option (Z * string) :=
  match s with
  | String c r =>
      if (Ascii.eqb c "e" || Ascii.eqb c "E")%bool then
        let '(neg, r1) := read_sign r in
        let '(e, n, r2) := read_digits r1 0%Z 0%nat in
        match n with
        | O => None
        | S _ => Some (if neg then (- e)%Z else e, r2)
        end
      else Some (0%Z, s)
  | EmptyString => Some (0%Z, s)
  end.

Definition float (s : string) : Outcome Q :=
  let '(neg, s1) := read_sign s in
  let '(ip, n1, s2) := read_digits s1 0%Z 0%nat in
  let '(fp, n2, s3) :=
    match s2 with
    | String "." r => read_digits r 0%Z 0%nat
    | _ => (0%Z, 0%nat, s2)
    end in
  match (n1 + n2)%nat with
  | O => Raised
  | S _ =>
      match read_exponent s3 with
      | Some (e, EmptyString) =>
          let scale := (10 ^ Z.of_nat n2)%Z in
          let mant := Qmake (ip * scale + fp) (Z.to_pos scale) in
          let v := mant * Qpower 10 e in
          Returned (if neg then - v else v)
      | _ => Raised
      end
  end.

End Py.

(** ** Resource-model helpers

    [parse_cpu] and [parse_memory] are static methods with the same text in
    [GreedyLBScheduler] and in [RefineLBScheduler]; one embedding serves
    both. *)

Module Resources.

(** [parse_cpu(cpu_string)]: millicores. *)
Definition parse_cpu (cpu_string : string) : Outcome Q :=
  if String.eqb cpu_string "" then Returned 0
  else if Py.endswith cpu_string "m" then
    Py.float (Py.drop_last 1 cpu_string)
  else if Py.endswith cpu_string "n" then
    let* x := Py.float (Py.drop_last 1 cpu_string) in
    Returned (x / 1000000)
  else
    let* x := Py.float cpu_string in
    Returned (x * 1000).

(** The [units] dictionary of [parse_memory], in insertion order, which is
    the order in which [units.items()] yields its entries. *)
Definition units : list (string * Q) :=
  [ ("Ki", 1024); ("Mi", 1024 ^ 2); ("Gi", 1024 ^ 3); ("Ti", 1024 ^ 4);
    ("K", 1000); ("M", 1000 ^ 2); ("G", 1000 ^ 3); ("T", 1000 ^ 4) ].

(** The [for unit, multiplier in units.items()] loop: the first unit that
    is a suffix decides; without any, the string is raw bytes. *)
Fixpoint parse_memory_units (us : list (string * Q)) (memory_string : string)
  : Outcome Q :=
  match us with
  | [] => Py.float memory_string
  | (unit, multiplier) :: rest =>
      if Py.endswith memory_string unit then
        let* x := Py.float (Py.drop_last (String.length unit) memory_string) in
        Returned (x * multiplier)
      else parse_memory_units rest memory_string
  end.

(** [parse_memory(memory_string)]: bytes. *)
Definition parse_memory (memory_string : string) : Outcome Q :=
  if String.eqb memory_string "" then Returned 0
  else parse_memory_units units memory_string.

End Resources.

(** ** The orchestrator's objects, as far as the source reads them *)

Module K8s.

(** [node.status.conditions[i]]: [type] and [status]. *)
Record Condition := {
  cond_type : string;
  cond_status : string }.

(** A node: [metadata.name], [status.conditions], [spec.unschedulable]
    (absent is [None]) and the [status.allocatable] dictionary. *)
Record Node := {
  node_name : string;
  conditions : list Condition;
  unschedulable : option bool;
  allocatable : gmap string string }.

(** [container.resources] may be absent, and so may its [requests]. *)
Record ResourceRequirements := {
  requests : option (gmap string string) }.

Record Container := {
  resources : option ResourceRequirements }.

(** A pod: [metadata.name], [metadata.namespace], [spec.node_name],
    [spec.containers], [status.phase]. *)
Record Pod := {
  pod_name : string;
  pod_namespace : string;
  pod_node_name : option string;
  containers : option (list Container);
  phase : string }.

(** A deployment: namespace, name and the declared scheduler of its pod
    template ([spec.template.spec.scheduler_name]). *)
Record Deployment := {
  dep_namespace : string;
  dep_name : string;
  dep_scheduler_name : option string }.

(** The snapshot of the API server that one decision reads. *)
Record Cluster := {
  nodes : list Node;
  pods : list Pod;
  deployments : list Deployment }.

(** The body of a [V1Binding]: pod identity and target node. *)
Record Binding := {
  binding_namespace : string;
  binding_pod : string;
  binding_target : string }.

(** [list_pod_for_all_namespaces(field_selector=
      "spec.nodeName=<name>,status.phase!=Failed,status.phase!=Succeeded")] *)
Definition on_node (name : string) (pod : Pod) : bool :=
  match pod_node_name pod with
  | Some n => (String.eqb n name
               && negb (String.eqb (phase pod) "Failed")
               && negb (String.eqb (phase pod) "Succeeded"))%bool
  | None => false
  end.

Definition list_pods_on_node (cl : Cluster) (name : string) : list Pod :=
  List.filter (on_node name) (pods cl).

(** The truth value of [container.resources and container.resources.requests]:
    the requests dictionary when it is present and not empty. *)
Definition truthy_requests (c : Container) : option (gmap string string) :=
  match resources c with
  | Some r =>
      match requests r with
      | Some m => if decide (m = ∅) then None else Some m
      | None => None
      end
  | None => None
  end.

(** [d.get(key, dflt)] *)
Definition get (d : gmap string string) (key dflt : string) : string :=
  default dflt (d !! key).

(** The loop that all three resource sums of the source share,

      [for container in containers:
         if container.resources and container.resources.requests:
           cpu += parse_cpu(requests.get('cpu', cpu_default))
           memory += parse_memory(requests.get('memory', memory_default))]

    with the key defaults of the call site as parameters. *)
Fixpoint add_requests (cpu_default memory_default : string)
    (cs : list Container) (acc : Q * Q) : Outcome (Q * Q) :=
  match cs with
  | [] => Returned acc
  | c :: rest =>
      match truthy_requests c with
      | Some req =>
          let* cpu := Resources.parse_cpu (get req "cpu" cpu_default) in
          let* memory := Resources.parse_memory (get req "memory" memory_default) in
          add_requests cpu_default memory_default rest
            (fst acc + cpu, snd acc + memory)
      | None => add_requests cpu_default memory_default rest acc
      end
  end.

(** [if pod.spec.containers: for container in pod.spec.containers: ...] *)
Definition containers_of (pod : Pod) : list Container :=
  default [] (containers pod).

(** [cpu_used] and [memory_used] over the pods of a node (key default ['0']). *)
Fixpoint pods_usage (ps : list Pod) (acc : Q * Q) : Outcome (Q * Q) :=
  match ps with
  | [] => Returned acc
  | pod :: rest =>
      let* acc' := add_requests "0" "0" (containers_of pod) acc in
      pods_usage rest acc'
  end.

(** [get_schedulable_nodes]: the same text in both schedulers. *)
Definition is_ready (node : Node) : bool :=
  existsb (fun c => (String.eqb (cond_type c) "Ready"
                     && String.eqb (cond_status c) "True")%bool)
          (conditions node).

Definition is_schedulable (node : Node) : bool :=
  match unschedulable node with
  | Some u => negb u
  | None => true
  end.

Definition get_schedulable_nodes (cl : Cluster) : list Node :=
  List.filter (fun node => (is_ready node && is_schedulable node)%bool) (nodes cl).

(** [bind_pod_to_node]: posts the binding; the server's answer is the
    oracle [accepts] ([false] is an [ApiException], which is caught).
    Returns the method's result and the binding posted. *)
Definition bind_pod_to_node (accepts : Binding -> bool)
    (pod_name namespace node_name : string) : bool * option Binding :=
  let binding := {| binding_namespace := namespace;
                    binding_pod := pod_name;
                    binding_target := node_name |} in
  (accepts binding, Some binding).

End K8s.

(** ** GreedyLB *)

Module GreedyLB.
Import K8s.

(** [calculate_node_score(node)] *)
Definition calculate_node_score (cl : Cluster) (node : Node) : Q :=
  except_return
    (let* cpu_allocatable := Resources.parse_cpu (get (allocatable node) "cpu" "0") in
     let* memory_allocatable := Resources.parse_memory (get (allocatable node) "memory" "0") in
     let* used := pods_usage (list_pods_on_node cl (node_name node)) (0, 0) in
     let cpu_used := fst used in
     let memory_used := snd used in
     let cpu_available := cpu_allocatable - cpu_used in
     let memory_available := memory_allocatable - memory_used in
     let cpu_score := (cpu_available / Py.max cpu_allocatable 1) * 70 in
     let memory_score := (memory_available / Py.max memory_allocatable 1) * 30 in
     Returned (cpu_score + memory_score))
    0.

(** One turn of the selection loop over [(best_node, best_score)]. *)
Definition select_step (cl : Cluster) (best : option Node * Q) (node : Node)
  : option Node * Q :=
  let score := calculate_node_score cl node in
  if Py.gt score (snd best) then (Some node, score) else best.

(** [select_best_node(nodes)] *)
Definition select_best_node (cl : Cluster) (nodes : list Node) : option Node :=
  match nodes with
  | [] => None
  | _ => fst (fold_left (select_step cl) nodes (None, -1))
  end.

(** [schedule_pod(pod)]: the result and the binding posted, if any. *)
Definition schedule_pod (accepts : Binding -> bool) (cl : Cluster) (pod : Pod)
  : bool * option Binding :=
  match get_schedulable_nodes cl with
  | [] => (false, None)
  | nodes =>
      match select_best_node cl nodes with
      | None => (false, None)
      | Some selected_node =>
          bind_pod_to_node accepts (pod_name pod) (pod_namespace pod)
            (node_name selected_node)
      end
  end.

End GreedyLB.

(** ** RefineLB *)

Module RefineLB.
Import K8s.

(** The dictionary returned by [get_node_resource_usage]. *)
Record Usage := {
  name : string;
  cpu_allocatable : Q;
  memory_allocatable : Q;
  cpu_used : Q;
  memory_used : Q;
  cpu_available : Q;
  memory_available : Q;
  pod_count : Q;
  cpu_utilization : Q;
  memory_utilization : Q }.

(** The dictionary returned by [get_pod_resource_requests]. *)
Record PodRequest := {
  cpu : Q;
  memory : Q }.

(** [get_node_resource_usage(node)]: [None] when the body raises. *)
Definition get_node_resource_usage (cl : Cluster) (node : Node) : option Usage :=
  except_return
    (let* cpu_alloc := Resources.parse_cpu (get (allocatable node) "cpu" "0") in
     let* memory_alloc := Resources.parse_memory (get (allocatable node) "memory" "0") in
     let pods := list_pods_on_node cl (node_name node) in
     let* used := pods_usage pods (0, 0) in
     Returned (Some
       {| name := node_name node;
          cpu_allocatable := cpu_alloc;
          memory_allocatable := memory_alloc;
          cpu_used := fst used;
          memory_used := snd used;
          cpu_available := cpu_alloc - fst used;
          memory_available := memory_alloc - snd used;
          pod_count := Py.len pods;
          cpu_utilization := (fst used / Py.max cpu_alloc 1) * 100;
          memory_utilization := (snd used / Py.max memory_alloc 1) * 100 |}))
    None.

(** [get_pod_resource_requests(pod)]; a parse error is not caught here. *)
Definition get_pod_resource_requests (pod : Pod) : Outcome PodRequest :=
  let* sums := add_requests "100m" "128Mi" (containers_of pod) (0, 0) in
  let cpu_request := fst sums in
  let memory_request := snd sums in
  let cpu_request := if Py.eq cpu_request 0 then 100 else cpu_request in
  let memory_request :=
    if Py.eq memory_request 0 then 128 * 1024 * 1024 else memory_request in
  Returned {| cpu := cpu_request; memory := memory_request |}.

(** [sum(n[field] for n in all_nodes_usage) / len(all_nodes_usage)];
    division by zero raises. *)
Definition average (field : Usage -> Q) (all_nodes_usage : list Usage) : Outcome Q :=
  match all_nodes_usage with
  | [] => Raised
  | _ => Returned (Py.sum (map field all_nodes_usage) / Py.len all_nodes_usage)
  end.

(** The four factors of [calculate_refined_score], for a usage that passed
    the feasibility test. *)
Definition new_cpu_util (usage : Usage) (pod_request : PodRequest) : Q :=
  ((cpu_used usage + cpu pod_request) / Py.max (cpu_allocatable usage) 1) * 100.

Definition new_mem_util (usage : Usage) (pod_request : PodRequest) : Q :=
  ((memory_used usage + memory pod_request) / Py.max (memory_allocatable usage) 1) * 100.

Definition resources_score (usage : Usage) (pod_request : PodRequest) : Q :=
  let cpu_after := cpu_available usage - cpu pod_request in
  let memory_after := memory_available usage - memory pod_request in
  let cpu_ratio := cpu_after / Py.max (cpu_allocatable usage) 1 in
  let memory_ratio := memory_after / Py.max (memory_allocatable usage) 1 in
  (cpu_ratio * 0.5 + memory_ratio * 0.5) * 40.

Definition balance_score (usage : Usage) (pod_request : PodRequest)
    (avg_cpu_util avg_mem_util : Q) : Q :=
  let cpu_balance := 100 - Py.abs (new_cpu_util usage pod_request - avg_cpu_util) in
  let mem_balance := 100 - Py.abs (new_mem_util usage pod_request - avg_mem_util) in
  (cpu_balance * 0.5 + mem_balance * 0.5) * 0.3.

Definition pod_density (usage : Usage) : Q :=
  let max_pods := 110 in
  (1 - (pod_count usage / max_pods)) * 20.

Definition target_score (usage : Usage) (pod_request : PodRequest) : Q :=
  let target_util := 65 in
  let cpu_target_score := 100 - Py.abs (new_cpu_util usage pod_request - target_util) in
  let mem_target_score := 100 - Py.abs (new_mem_util usage pod_request - target_util) in
  (cpu_target_score * 0.5 + mem_target_score * 0.5) * 0.1.

(** The feasibility test, negated: the node cannot take the pod. *)
Definition cannot_schedule (usage : Usage) (pod_request : PodRequest) : bool :=
  (Py.lt (cpu_available usage) (cpu pod_request)
   || Py.lt (memory_available usage) (memory pod_request))%bool.

(** [calculate_refined_score(node, pod_request, all_nodes_usage)] *)
Definition calculate_refined_score (cl : Cluster) (node : Node)
    (pod_request : PodRequest) (all_nodes_usage : list Usage) : Q :=
  except_return
    (match get_node_resource_usage cl node with
     | None => Returned 0
     | Some usage =>
         if cannot_schedule usage pod_request then Returned 0
         else
           let* avg_cpu_util := average cpu_utilization all_nodes_usage in
           let* avg_mem_util := average memory_utilization all_nodes_usage in
           Returned (resources_score usage pod_request
                     + balance_score usage pod_request avg_cpu_util avg_mem_util
                     + pod_density usage
                     + target_score usage pod_request)
     end)
    0.

(** [scored_nodes.sort(key=lambda x: x[1], reverse=True)]: a stable sort,
    descending; entries of equal score keep their order. *)
Fixpoint insert_desc (x : Node * Q) (l : list (Node * Q)) : list (Node * Q) :=
  match l with
  | [] => [x]
  | y :: ys => if Py.gt (snd y) (snd x) then y :: insert_desc x ys else x :: l
  end.

Definition sort_desc (l : list (Node * Q)) : list (Node * Q) :=
  fold_right insert_desc [] l.

(** The loop that fills [all_nodes_usage]. *)
Definition collect_usage (cl : Cluster) (nodes : list Node) : list Usage :=
  omap (get_node_resource_usage cl) nodes.

(** The loop that fills [scored_nodes]. *)
Fixpoint score_nodes (cl : Cluster) (pod_request : PodRequest)
    (all_nodes_usage : list Usage) (nodes : list Node) : list (Node * Q) :=
  match nodes with
  | [] => []
  | node :: rest =>
      let score := calculate_refined_score cl node pod_request all_nodes_usage in
      if Py.gt score 0
      then (node, score) :: score_nodes cl pod_request all_nodes_usage rest
      else score_nodes cl pod_request all_nodes_usage rest
  end.

(** [select_best_node(nodes, pod)] *)
Definition select_best_node (cl : Cluster) (nodes : list Node) (pod : Pod)
  : Outcome (option Node) :=
  match nodes with
  | [] => Returned None
  | _ =>
      let* pod_request := get_pod_resource_requests pod in
      match collect_usage cl nodes with
      | [] => Returned None
      | all_nodes_usage =>
          match sort_desc (score_nodes cl pod_request all_nodes_usage nodes) with
          | [] => Returned None
          | (best_node, best_score) :: _ => Returned (Some best_node)
          end
      end
  end.

(** [schedule_pod(pod)]: the result and the binding posted, if any; an
    exception of [select_best_node] leaves the method before any binding. *)
Definition schedule_pod (accepts : Binding -> bool) (cl : Cluster) (pod : Pod)
  : Outcome (bool * option Binding) :=
  match get_schedulable_nodes cl with
  | [] => Returned (false, None)
  | nodes =>
      let* selected := select_best_node cl nodes pod in
      match selected with
      | None => Returned (false, None)
      | Some selected_node =>
          Returned (bind_pod_to_node accepts (pod_name pod) (pod_namespace pod)
                      (node_name selected_node))
      end
  end.

End RefineLB.

(** ** The pattern detector *)

Module Detector.
Import K8s.

(** [class WorkloadPattern] *)
Module WorkloadPattern.
Definition STABLE : string := "stable".
Definition LINEAR : string := "linear".
Definition EXPONENTIAL : string := "exponential".
End WorkloadPattern.

(** [class SchedulerType] *)
Module SchedulerType.
Definition GREEDY_LB : string := "greedylb-scheduler".
Definition REFINE_LB : string := "refinelb-scheduler".
End SchedulerType.

(** The attributes of a [PatternDetector].  [pod_count_history] is the
    [deque(maxlen=history_window)], oldest sample first; a sample is a
    result of [get_active_pod_count], that is a [len(...)] or [0], hence a
    natural number. *)
Record PatternDetector := {
  monitor_interval : Q;
  history_window : nat;
  stable_threshold : Q;
  linear_threshold : Q;
  pod_count_history : list N;
  current_scheduler : option string;
  current_pattern : option string }.

(** [PatternDetector(monitor_interval, history_window, stable_threshold,
    linear_threshold)] *)
Definition init (monitor_interval : Q) (history_window : nat)
    (stable_threshold linear_threshold : Q) : PatternDetector :=
  {| monitor_interval := monitor_interval;
     history_window := history_window;
     stable_threshold := stable_threshold;
     linear_threshold := linear_threshold;
     pod_count_history := [];
     current_scheduler := None;
     current_pattern := None |}.

(** The detector that [main] builds: 10 s, 6 samples, 10 %, 30 %. *)
Definition default_detector : PatternDetector := init 10 6 10 30.

(** The answers of the API server to the detector's calls: whether a list
    call succeeds, and whether a patch is accepted; a failure is an
    [ApiException]. *)
Record Api := {
  list_pods_ok : bool;
  list_deployments_ok : bool;
  patch_ok : Deployment -> bool }.

Definition system_namespaces : list string :=
  ["kube-system"; "kube-public"; "kube-node-lease"].

Definition in_strings (s : string) (l : list string) : bool :=
  existsb (String.eqb s) l.

(** [get_active_pod_count()] *)
Definition get_active_pod_count (api : Api) (cl : Cluster) : N :=
  if list_pods_ok api then
    let active_pods :=
      List.filter (fun pod =>
        (negb (in_strings (pod_namespace pod) system_namespaces)
         && in_strings (phase pod) ["Running"; "Pending"])%bool) (pods cl) in
    N.of_nat (length active_pods)
  else 0%N.

(** A sample, as a number. *)
Definition num (n : N) : Q := inject_Z (Z.of_N n).

(** The loop [for i in range(1, len(history))] that fills [rates]:
    one rate per step whose predecessor is positive. *)
Fixpoint step_rates (history : list N) : list Q :=
  match history with
  | prev :: ((curr :: _) as rest) =>
      if (0 <? prev)%N
      then ((num curr - num prev) / num prev) * 100 :: step_rates rest
      else step_rates rest
  | _ => []
  end.

(** [calculate_growth_rate()]: the rate and the trend. *)
Definition calculate_growth_rate (self : PatternDetector) : Q * string :=
  let history := pod_count_history self in
  if (length history <? 2)%nat then (0, "insufficient_data")
  else
    let oldest := hd 0%N history in
    let newest := List.last history 0%N in
    if (oldest =? 0)%N then
      if (0 <? newest)%N then (100, "startup") else (0, "no_pods")
    else
      let change := ((num newest - num oldest) / num oldest) * 100 in
      if (3 <=? length history)%nat then
        let rates := step_rates history in
        match rates with
        | _ :: _ => (Py.sum rates / Py.len rates, "calculated")
        | [] => (change, "simple")
        end
      else (change, "simple").

(** [detect_pattern(growth_rate)] *)
Definition detect_pattern (self : PatternDetector) (growth_rate : Q) : string :=
  let abs_rate := Py.abs growth_rate in
  if Py.lt abs_rate (stable_threshold self) then WorkloadPattern.STABLE
  else if Py.lt abs_rate (linear_threshold self) then WorkloadPattern.LINEAR
  else WorkloadPattern.EXPONENTIAL.

(** [determine_optimal_scheduler(pattern)] *)
Definition determine_optimal_scheduler (pattern : string) : string :=
  if in_strings pattern [WorkloadPattern.STABLE; WorkloadPattern.LINEAR]
  then SchedulerType.GREEDY_LB
  else SchedulerType.REFINE_LB.

(** What one run of [switch_scheduler] did: its result, the patches it
    sent (in order), and the deployments as the server holds them after
    the accepted ones. *)
Record Switched := {
  switched_count : Z;
  patches_sent : list Deployment;
  deployments_after : list Deployment }.

Definition same_scheduler (declared : option string) (target : string) : bool :=
  match declared with
  | Some s => String.eqb s target
  | None => false
  end.

(** The loop of [switch_scheduler] over [deployments.items]. *)
Fixpoint switch_loop (api : Api) (target_scheduler : string)
    (items : list Deployment) (acc : Switched) : Switched :=
  match items with
  | [] => acc
  | deployment :: rest =>
      if in_strings (dep_namespace deployment) system_namespaces then
        switch_loop api target_scheduler rest
          {| switched_count := switched_count acc;
             patches_sent := patches_sent acc;
             deployments_after := deployments_after acc ++ [deployment] |}
      else if negb (same_scheduler (dep_scheduler_name deployment) target_scheduler) then
        let body := {| dep_namespace := dep_namespace deployment;
                       dep_name := dep_name deployment;
                       dep_scheduler_name := Some target_scheduler |} in
        if patch_ok api body then
          switch_loop api target_scheduler rest
            {| switched_count := switched_count acc + 1;
               patches_sent := patches_sent acc ++ [body];
               deployments_after := deployments_after acc ++ [body] |}
        else
          switch_loop api target_scheduler rest
            {| switched_count := switched_count acc;
               patches_sent := patches_sent acc ++ [body];
               deployments_after := deployments_after acc ++ [deployment] |}
      else
        switch_loop api target_scheduler rest
          {| switched_count := switched_count acc;
             patches_sent := patches_sent acc;
             deployments_after := deployments_after acc ++ [deployment] |}
  end.

(** [switch_scheduler(target_scheduler)] *)
Definition switch_scheduler (api : Api) (cl : Cluster) (target_scheduler : string)
  : Switched :=
  if list_deployments_ok api then
    switch_loop api target_scheduler (deployments cl)
      {| switched_count := 0; patches_sent := []; deployments_after := [] |}
  else
    {| switched_count := 0; patches_sent := []; deployments_after := deployments cl |}.

(** What one decision of the monitoring loop did: the detector after it,
    the placer it chose, the patches it sent and the cluster after it. *)
Record Decision := {
  detector_after : PatternDetector;
  optimal_scheduler : string;
  patches : list Deployment;
  cluster_after : Cluster }.

Definition with_deployments (cl : Cluster) (ds : list Deployment) : Cluster :=
  {| nodes := nodes cl; pods := pods cl; deployments := ds |}.

Definition set_current (self : PatternDetector) (scheduler pattern : string)
  : PatternDetector :=
  {| monitor_interval := monitor_interval self;
     history_window := history_window self;
     stable_threshold := stable_threshold self;
     linear_threshold := linear_threshold self;
     pod_count_history := pod_count_history self;
     current_scheduler := Some scheduler;
     current_pattern := Some pattern |}.

(** The decision step of [monitor_loop]: from [calculate_growth_rate] to
    the end of the [if optimal_scheduler != self.current_scheduler]. *)
Definition decision_step (api : Api) (cl : Cluster) (self : PatternDetector)
  : Decision :=
  let '(growth_rate, trend) := calculate_growth_rate self in
  let pattern := detect_pattern self growth_rate in
  let optimal := determine_optimal_scheduler pattern in
  if negb (same_scheduler (current_scheduler self) optimal) then
    let switched := switch_scheduler api cl optimal in
    {| detector_after :=
         if (0 <=? switched_count switched)%Z
         then set_current self optimal pattern
         else self;
       optimal_scheduler := optimal;
       patches := patches_sent switched;
       cluster_after := with_deployments cl (deployments_after switched) |}
  else
    {| detector_after := self;
       optimal_scheduler := optimal;
       patches := [];
       cluster_after := cl |}.

(** [deque.append] on a deque of bounded length: the oldest entries leave. *)
Definition deque_append (maxlen : nat) (d : list N) (x : N) : list N :=
  let d' := d ++ [x] in
  drop (length d' - maxlen) d'.

Definition record_sample (self : PatternDetector) (pod_count : N) : PatternDetector :=
  {| monitor_interval := monitor_interval self;
     history_window := history_window self;
     stable_threshold := stable_threshold self;
     linear_threshold := linear_threshold self;
     pod_count_history :=
       deque_append (history_window self) (pod_count_history self) pod_count;
     current_scheduler := current_scheduler self;
     current_pattern := current_pattern self |}.

(** A detector with the defaults of [main] whose window holds [w]. *)
Definition holding (w : list N) : PatternDetector :=
  {| monitor_interval := 10;
     history_window := 6;
     stable_threshold := 10;
     linear_threshold := 30;
     pod_count_history := w;
     current_scheduler := None;
     current_pattern := None |}.

(** One iteration of [monitor_loop]: sample, then decide when the window
    holds two samples or more. *)
Definition monitor_iteration (api : Api) (cl : Cluster) (self : PatternDetector)
  : Decision + PatternDetector :=
  let pod_count := get_active_pod_count api cl in
  let self := record_sample self pod_count in
  if (length (pod_count_history self) <? 2)%nat then inr self
  else inl (decision_step api cl self).

End Detector.

(** ** The specification's wording, for comparison with the code *)

Module Spec.
Import K8s.

(** *** Growth rate *)

(** The consecutive steps [(prev, curr)] of a window. *)
Definition steps (w : list N) : list (N * N) := zip w (tl w).

(** The percentage change of one step, [(curr - prev) / prev * 100]. *)
Definition pct_change (step : N * N) : Q :=
  ((Detector.num (snd step) - Detector.num (fst step)) / Detector.num (fst step)) * 100.

Definition mean (xs : list Q) : Q := Py.sum xs / Py.len xs.

Definition nonzero_predecessor (step : N * N) : bool := negb (fst step =? 0)%N.

(** The growth rate as the specification words it: the three-sample rule
    applies when every consecutive predecessor is non-zero, and every
    other window with a non-zero oldest sample takes the simple rule. *)
Definition growth_rate (w : list N) : Q * string :=
  if (length w <? 2)%nat then (0, "insufficient_data")
  else
    let oldest := hd 0%N w in
    let newest := List.last w 0%N in
    if (oldest =? 0)%N then
      if (0 <? newest)%N then (100, "startup") else (0, "no_pods")
    else if ((3 <=? length w)%nat && forallb nonzero_predecessor (steps w))%bool then
      (mean (map pct_change (steps w)), "calculated")
    else
      (((Detector.num newest - Detector.num oldest) / Detector.num oldest) * 100, "simple").

(** *** RefineLB score *)

(** The score as the specification words it, from the usage of the node,
    the request of the pod and the mean utilisations of the candidates.
    [divisor] is what the ratio "after placement" is taken over: the
    specification says the allocatable amount.  The utilisation "if the pod
    is placed", for which the specification gives no formula, is the one
    the code computes. *)
Definition refined_score_over (divisor : Q -> Q)
    (u : RefineLB.Usage) (r : RefineLB.PodRequest) (avg_cpu_util avg_mem_util : Q) : Q :=
  let cpu_after :=
    (RefineLB.cpu_available u - RefineLB.cpu r) / divisor (RefineLB.cpu_allocatable u) in
  let mem_after :=
    (RefineLB.memory_available u - RefineLB.memory r) / divisor (RefineLB.memory_allocatable u) in
  let new_cpu_util := RefineLB.new_cpu_util u r in
  let new_mem_util := RefineLB.new_mem_util u r in
  let cpu_balance := 100 - Qabs (new_cpu_util - avg_cpu_util) in
  let mem_balance := 100 - Qabs (new_mem_util - avg_mem_util) in
  let cpu_target := 100 - Qabs (new_cpu_util - 65) in
  let mem_target := 100 - Qabs (new_mem_util - 65) in
  (0.5 * cpu_after + 0.5 * mem_after) * 40
  + (0.5 * cpu_balance + 0.5 * mem_balance) * 0.3
  + (1 - RefineLB.pod_count u / 110) * 20
  + (0.5 * cpu_target + 0.5 * mem_target) * 0.1.

Definition refined_score := refined_score_over (fun allocatable => allocatable).

(** The same with the divisor the code uses, [max(allocatable, 1)]. *)
Definition refined_score_guarded := refined_score_over (fun allocatable => Qmax allocatable 1).

(** The mean utilisation over all candidates. *)
Definition avg_util (field : RefineLB.Usage -> Q) (all : list RefineLB.Usage) : Q :=
  mean (map field all).

(** *** Pod resource request *)

(** The requests a container declares: its requests dictionary, empty when
    the container has no resources or no requests. *)
Definition declared_requests (c : Container) : gmap string string :=
  match resources c with
  | Some r => match requests r with
              | Some m => m
              | None => ∅
              end
  | None => ∅
  end.

(** The amount of one resource that a container asks for: nothing when it
    declares no requests at all, the parsed entry of the resource when
    there is one, and [when_missing] when it declares requests but none for
    this resource. *)
Definition amount (parse : string -> Outcome Q) (key : string) (when_missing : Q)
    (c : Container) : Outcome Q :=
  if decide (declared_requests c = ∅) then Returned 0
  else match declared_requests c !! key with
       | Some quantity => parse quantity
       | None => Returned when_missing
       end.

(** The sum of amounts; it raises when one of them does. *)
Definition total (amounts : list (Outcome Q)) : Outcome Q :=
  fold_right
    (fun a rest => let* x := a in let* s := rest in Returned (x + s))
    (Returned 0) amounts.

(** A sum, or the default where the sum is zero. *)
Definition or_default (sum dflt : Q) : Q := if Qeq_bool sum 0 then dflt else sum.

(** The request of a pod as the sums of what its containers ask for, with
    the defaults 100 millicores and 128*1024*1024 bytes for a zero sum. *)
Definition request_with (cpu_when_missing memory_when_missing : Q) (pod : Pod)
  : Outcome RefineLB.PodRequest :=
  let cs := match containers pod with
            | Some cs => cs
            | None => []
            end in
  let* cpu_sum := total (map (amount Resources.parse_cpu "cpu" cpu_when_missing) cs) in
  let* memory_sum :=
    total (map (amount Resources.parse_memory "memory" memory_when_missing) cs) in
  Returned {| RefineLB.cpu := or_default cpu_sum 100;
              RefineLB.memory := or_default memory_sum (128 * 1024 * 1024) |}.

(** The request as the specification words it: a container that declares no
    amount for a resource adds nothing to the sum of that resource. *)
Definition pod_request : Pod -> Outcome RefineLB.PodRequest := request_with 0 0.

(** The request with the per-key defaults: a container that declares
    requests without a cpu entry counts as 100 millicores, one without a
    memory entry as 128*1024*1024 bytes. *)
Definition pod_request_keyed : Pod -> Outcome RefineLB.PodRequest :=
  request_with 100 (128 * 1024 * 1024).

(** Every container that declares requests declares both resources. *)
Definition declares_both (c : Container) : Prop :=
  declared_requests c = ∅
  \/ (is_Some (declared_requests c !! "cpu")
      /\ is_Some (declared_requests c !! "memory")).

(** Two numbers, or two requests, that a caller cannot tell apart: both
    raise, or both return and the numbers are equal. *)
Definition same_outcome (a b : Outcome Q) : Prop :=
  match a, b with
  | Returned x, Returned y => x == y
  | Raised, Raised => True
  | _, _ => False
  end.

Definition same_request (a b : Outcome RefineLB.PodRequest) : Prop :=
  match a, b with
  | Returned x, Returned y =>
      RefineLB.cpu x == RefineLB.cpu y /\ RefineLB.memory x == RefineLB.memory y
  | Raised, Raised => True
  | _, _ => False
  end.

End Spec.

(** ** Observations on outcomes *)

(** A returned number, up to equality of rationals. *)
Definition returns (o : Outcome Q) (v : Q) : Prop :=
  match o with
  | Returned x => x == v
  | Raised => False
  end.

(** The binding that a run of [schedule_pod] posted; none when it raised. *)
Definition posted (o : Outcome (bool * option K8s.Binding)) : option K8s.Binding :=
  match o with
  | Returned r => snd r
  | Raised => None
  end.

(** The node has a condition of type "Ready" whose status is "True". *)
Definition has_ready_condition (node : K8s.Node) : Prop :=
  exists c, In c (K8s.conditions node)
            /\ K8s.cond_type c = "Ready" /\ K8s.cond_status c = "True".

(** The node is not cordoned: the flag is absent or false. *)
Definition not_cordoned (node : K8s.Node) : Prop :=
  K8s.unschedulable node = None \/ K8s.unschedulable node = Some false.

(** ** Concrete clusters and pods *)

Module Scenario.
Import K8s.

Definition requesting (cpu memory : string) : Container :=
  {| resources := Some {| requests := Some (<["cpu" := cpu]> (<["memory" := memory]> ∅)) |} |}.

Definition ready : list Condition :=
  [ {| cond_type := "MemoryPressure"; cond_status := "False" |};
    {| cond_type := "Ready"; cond_status := "True" |} ].

Definition node_a : Node :=
  {| node_name := "node-a"; conditions := ready; unschedulable := None;
     allocatable := <["cpu" := "4"]> (<["memory" := "8Gi"]> ∅) |}.

Definition node_b : Node :=
  {| node_name := "node-b"; conditions := ready; unschedulable := Some false;
     allocatable := <["cpu" := "2"]> (<["memory" := "4Gi"]> ∅) |}.

(** A cordoned node and a node that is not ready. *)
Definition node_c : Node :=
  {| node_name := "node-c"; conditions := ready; unschedulable := Some true;
     allocatable := <["cpu" := "16"]> (<["memory" := "64Gi"]> ∅) |}.

Definition node_d : Node :=
  {| node_name := "node-d";
     conditions := [ {| cond_type := "Ready"; cond_status := "False" |} ];
     unschedulable := None;
     allocatable := <["cpu" := "16"]> (<["memory" := "64Gi"]> ∅) |}.

(** A node whose resources are all requested by the pod [hog]. *)
Definition node_full : Node :=
  {| node_name := "node-full"; conditions := ready; unschedulable := None;
     allocatable := <["cpu" := "1"]> (<["memory" := "1Gi"]> ∅) |}.

(** A node with half a millicore of allocatable CPU. *)
Definition node_tiny : Node :=
  {| node_name := "node-tiny"; conditions := ready; unschedulable := None;
     allocatable := <["cpu" := "500000n"]> (<["memory" := "1Gi"]> ∅) |}.

Definition hog : Pod :=
  {| pod_name := "hog"; pod_namespace := "default";
     pod_node_name := Some "node-full";
     containers := Some [requesting "1" "1Gi"];
     phase := "Running" |}.

Definition pending (name : string) (cs : list Container) : Pod :=
  {| pod_name := name; pod_namespace := "default"; pod_node_name := None;
     containers := Some cs; phase := "Pending" |}.

Definition small_pod : Pod := pending "small" [requesting "500m" "256Mi"].
Definition big_pod : Pod := pending "big" [requesting "8" "16Gi"].
Definition tiny_pod : Pod := pending "tiny" [requesting "100000n" "128Mi"].

(** Two containers; the second declares memory only. *)
Definition sidecar_pod : Pod :=
  pending "sidecar"
    [ requesting "200m" "64Mi";
      {| resources := Some {| requests := Some (<["memory" := "64Mi"]> ∅) |} |} ].

Definition cluster_abcd : Cluster :=
  {| nodes := [node_c; node_a; node_d; node_b]; pods := []; deployments := [] |}.

Definition cluster_full : Cluster :=
  {| nodes := [node_full]; pods := [hog]; deployments := [] |}.

Definition cluster_tiny : Cluster :=
  {| nodes := [node_tiny]; pods := []; deployments := [] |}.

(** An API server that accepts every binding. *)
Definition accepting (b : Binding) : bool := true.

End Scenario.

(** ** The watch loop: one event *)

Module Watch.
Import K8s.

(** An event of the watch stream: its [type] and its [object]. *)
Record Event := {
  event_type : string;
  event_object : Pod }.

(** The test [watch_for_pods] applies to an event before it schedules:
    the type is ADDED or MODIFIED, the pod is Pending and
    [pod.spec.node_name is None]. *)
Definition wants_scheduling (event : Event) : bool :=
  ((String.eqb (event_type event) "ADDED" || String.eqb (event_type event) "MODIFIED")
   && (String.eqb (phase (event_object event)) "Pending"
       && match pod_node_name (event_object event) with
          | None => true
          | Some _ => false
          end))%bool.

(** The body of the [for event in w.stream(...)] loop of GreedyLB; the
    result of [schedule_pod] is dropped, the binding posted is kept. *)
Definition greedy_on_event (accepts : Binding -> bool) (cl : Cluster) (event : Event)
  : option Binding :=
  if wants_scheduling event
  then snd (GreedyLB.schedule_pod accepts cl (event_object event))
  else None.

(** The same for RefineLB; an exception of [schedule_pod] leaves the loop
    body for the [except] clause of the watch loop. *)
Definition refine_on_event (accepts : Binding -> bool) (cl : Cluster) (event : Event)
  : Outcome (option Binding) :=
  if wants_scheduling event
  then let* r := RefineLB.schedule_pod accepts cl (event_object event) in
       Returned (snd r)
  else Returned None.

End Watch.

(** ** Notions used to state the properties *)

Module Derived.
Import K8s.

(** The deployments that [switch_scheduler] patches: outside the system
    namespaces and not yet declaring the target. *)
Definition needs_switch (target : string) (d : Deployment) : bool :=
  (negb (Detector.in_strings (dep_namespace d) Detector.system_namespaces)
   && negb (Detector.same_scheduler (dep_scheduler_name d) target))%bool.

(** The body of the patch: the deployment with the target as scheduler. *)
Definition retarget (target : string) (d : Deployment) : Deployment :=
  {| dep_namespace := dep_namespace d;
     dep_name := dep_name d;
     dep_scheduler_name := Some target |}.

(** What the server holds for a deployment after a run of the loop. *)
Definition after_switch (api : Detector.Api) (target : string) (d : Deployment)
  : Deployment :=
  if (needs_switch target d && Detector.patch_ok api (retarget target d))%bool
  then retarget target d else d.

(** A window whose samples never decrease, and one whose samples never
    increase, step by step. *)
Definition nondecreasing (w : list N) : Prop :=
  Forall (fun step => (fst step <= snd step)%N) (Spec.steps w).

Definition nonincreasing (w : list N) : Prop :=
  Forall (fun step => (snd step <= fst step)%N) (Spec.steps w).

(** The parsed entry of a key, with the default string of the code for a
    missing key, against the amount of the specification. *)
Definition reads_alike (cpu_default memory_default : string)
    (cpu_missing memory_missing : Q) (c : Container) : Prop :=
  forall req, truthy_requests c = Some req ->
    Spec.same_outcome (Resources.parse_cpu (get req "cpu" cpu_default))
      (Spec.amount Resources.parse_cpu "cpu" cpu_missing c) /\
    Spec.same_outcome (Resources.parse_memory (get req "memory" memory_default))
      (Spec.amount Resources.parse_memory "memory" memory_missing c).

(** The cluster with one more pod. *)
Definition with_pod (cl : Cluster) (pod : Pod) : Cluster :=
  {| nodes := nodes cl; pods := pods cl ++ [pod]; deployments := deployments cl |}.

(** A pod is counted on a node when it is assigned to it and its phase is
    neither Failed nor Succeeded. *)
Definition counted_on (node : Node) (pod : Pod) : Prop :=
  pod_node_name pod = Some (node_name node)
  /\ phase pod <> "Failed" /\ phase pod <> "Succeeded".

(** A pod is active for the detector: outside the system namespaces and
    Running or Pending. *)
Definition active (pod : Pod) : bool :=
  (negb (Detector.in_strings (pod_namespace pod) Detector.system_namespaces)
   && Detector.in_strings (phase pod) ["Running"; "Pending"])%bool.

End Derived.

(** ** A cluster with deployments *)

Module Fleet.
Import K8s.

Definition dns : Deployment :=
  {| dep_namespace := "kube-system"; dep_name := "coredns"; dep_scheduler_name := None |}.

Definition web : Deployment :=
  {| dep_namespace := "default"; dep_name := "web";
     dep_scheduler_name := Some "greedylb-scheduler" |}.

Definition batch : Deployment :=
  {| dep_namespace := "jobs"; dep_name := "batch";
     dep_scheduler_name := Some "refinelb-scheduler" |}.

Definition plain : Deployment :=
  {| dep_namespace := "default"; dep_name := "plain"; dep_scheduler_name := None |}.

Definition cluster : Cluster :=
  {| nodes := []; pods := []; deployments := [dns; web; batch; plain] |}.

(** A server that answers every call, one whose listings fail, and one
    that rejects the patch of [plain]. *)
Definition api_up : Detector.Api :=
  {| Detector.list_pods_ok := true; Detector.list_deployments_ok := true;
     Detector.patch_ok := fun _ => true |}.

Definition api_down : Detector.Api :=
  {| Detector.list_pods_ok := false; Detector.list_deployments_ok := false;
     Detector.patch_ok := fun _ => true |}.

Definition api_flaky : Detector.Api :=
  {| Detector.list_pods_ok := true; Detector.list_deployments_ok := true;
     Detector.patch_ok := fun d => negb (String.eqb (dep_name d) "plain") |}.

End Fleet.

(** * Properties *)

(** ** Strings: suffixes *)

Section Suffixes.

Lemma endswith_refl (s : string) : Py.endswith s s = true.
Proof. destruct s; simpl; [reflexivity | now rewrite Ascii.eqb_refl, String.eqb_refl]. Qed.

Lemma endswith_app (s suffix : string) :
  Py.endswith (s +:+ suffix) suffix = true.
Proof.
  induction s as [|c s IH].
  - apply endswith_refl.
  - change (String c s +:+ suffix) with (String c (s +:+ suffix)).
    cbn [Py.endswith]. rewrite IH.
    now destruct (String.eqb (String c (s +:+ suffix)) suffix).
Qed.

Lemma length_app_string (s t : string) :
  String.length (s +:+ t) = (String.length s + String.length t)%nat.
Proof. induction s as [|c s IH]; simpl; [reflexivity | now rewrite IH]. Qed.

Lemma substring_prefix (s t : string) :
  String.substring 0 (String.length s) (s +:+ t) = s.
Proof.
  induction s as [|c s IH]; simpl.
  - now destruct t.
  - now rewrite IH.
Qed.

Lemma drop_last_app (s suffix : string) :
  Py.drop_last (String.length suffix) (s +:+ suffix) = s.
Proof.
  unfold Py.drop_last. rewrite length_app_string.
  replace (String.length s + String.length suffix - String.length suffix)%nat
    with (String.length s) by lia.
  apply substring_prefix.
Qed.

(** A string that ends in the two characters [a c] does not end in [b c]
    when [a] and [b] differ. *)
Lemma endswith_other (a b c : ascii) (s : string) :
  a <> b ->
  Py.endswith (s +:+ String a (String c EmptyString))
              (String b (String c EmptyString)) = false.
Proof.
  intros Hab. induction s as [|d s IH].
  - simpl. destruct (Ascii.eqb_spec a b) as [->|_]; [contradiction|].
    destruct (Ascii.eqb c b); simpl; reflexivity.
  - change (String d s +:+ String a (String c EmptyString))
      with (String d (s +:+ String a (String c EmptyString))).
    cbn [Py.endswith]. rewrite IH.
    destruct (String.eqb_spec (String d (s +:+ String a (String c EmptyString)))
                (String b (String c EmptyString))) as [E|_]; [|reflexivity].
    exfalso. injection E as _ E. apply (f_equal String.length) in E.
    rewrite length_app_string in E. simpl in E. lia.
Qed.

Lemma app_nonempty (s t : string) : t <> EmptyString -> String.eqb (s +:+ t) "" = false.
Proof.
  intros Ht. destruct s; simpl; [|reflexivity].
  destruct t; [contradiction | reflexivity].
Qed.

End Suffixes.

(** ** C9: the parsers at their boundary inputs *)

Section BinaryUnits.

Let scaled (s : string) (multiplier : Q) : Outcome Q :=
  let* x := Py.float s in Returned (x * multiplier).

Lemma parse_memory_Ki (s : string) :
  Resources.parse_memory (s +:+ "Ki") = scaled s 1024.
Proof.
  unfold Resources.parse_memory. rewrite app_nonempty by discriminate.
  cbn [Resources.units Resources.parse_memory_units].
  rewrite endswith_app. now rewrite (drop_last_app s "Ki").
Qed.

Lemma parse_memory_Mi (s : string) :
  Resources.parse_memory (s +:+ "Mi") = scaled s (1024 ^ 2).
Proof.
  unfold Resources.parse_memory. rewrite app_nonempty by discriminate.
  cbn [Resources.units Resources.parse_memory_units].
  rewrite (endswith_other "M" "K" "i") by discriminate.
  rewrite endswith_app. now rewrite (drop_last_app s "Mi").
Qed.

Lemma parse_memory_Gi (s : string) :
  Resources.parse_memory (s +:+ "Gi") = scaled s (1024 ^ 3).
Proof.
  unfold Resources.parse_memory. rewrite app_nonempty by discriminate.
  cbn [Resources.units Resources.parse_memory_units].
  rewrite (endswith_other "G" "K" "i"), (endswith_other "G" "M" "i") by discriminate.
  rewrite endswith_app. now rewrite (drop_last_app s "Gi").
Qed.

Lemma parse_memory_Ti (s : string) :
  Resources.parse_memory (s +:+ "Ti") = scaled s (1024 ^ 4).
Proof.
  unfold Resources.parse_memory. rewrite app_nonempty by discriminate.
  cbn [Resources.units Resources.parse_memory_units].
  rewrite (endswith_other "T" "K" "i"), (endswith_other "T" "M" "i"),
    (endswith_other "T" "G" "i") by discriminate.
  rewrite endswith_app. now rewrite (drop_last_app s "Ti").
Qed.

End BinaryUnits.

(** C9.  The CPU parser maps "100m" to 100, "2" to 2000, "500000000n" to 500
    and the empty string to 0; the memory parser maps "128Mi" to 128*1048576,
    "1Gi" to 1073741824, "1G" to 1000000000, "1024" to 1024 and the empty
    string to 0; and for every string [s], the string [s] followed by "Mi" is
    parsed as [float(s)] scaled by 1024^2 (it raises exactly when [float(s)]
    does), never under the suffix "M"; likewise for "Ki", "Gi" and "Ti". *)
Theorem parsers_boundary_and_longest_suffix :
  returns (Resources.parse_cpu "100m") 100 /\
  returns (Resources.parse_cpu "2") 2000 /\
  returns (Resources.parse_cpu "500000000n") 500 /\
  returns (Resources.parse_cpu "") 0 /\
  returns (Resources.parse_memory "128Mi") (128 * 1048576) /\
  returns (Resources.parse_memory "1Gi") 1073741824 /\
  returns (Resources.parse_memory "1G") 1000000000 /\
  returns (Resources.parse_memory "1024") 1024 /\
  returns (Resources.parse_memory "") 0 /\
  (forall s : string,
      Resources.parse_memory (s +:+ "Mi")
      = (let* x := Py.float s in Returned (x * 1024 ^ 2)) /\
      Resources.parse_memory (s +:+ "Ki")
      = (let* x := Py.float s in Returned (x * 1024)) /\
      Resources.parse_memory (s +:+ "Gi")
      = (let* x := Py.float s in Returned (x * 1024 ^ 3)) /\
      Resources.parse_memory (s +:+ "Ti")
      = (let* x := Py.float s in Returned (x * 1024 ^ 4))).
Proof.
  repeat split; try (vm_compute; reflexivity).
  - apply parse_memory_Mi.
  - apply parse_memory_Ki.
  - apply parse_memory_Gi.
  - apply parse_memory_Ti.
Qed.

(** ** Comparisons of numbers *)

Section Comparisons.

Lemma lt_true (x y : Q) : Py.lt x y = true <-> x < y.
Proof.
  unfold Py.lt. rewrite negb_true_iff. split.
  - intros H. apply Qnot_le_lt. intros Hle.
    apply Qle_bool_iff in Hle. congruence.
  - intros H. destruct (Qle_bool y x) eqn:E; [|reflexivity].
    apply Qle_bool_iff in E. lra.
Qed.

Lemma lt_false (x y : Q) : Py.lt x y = false <-> y <= x.
Proof.
  unfold Py.lt. rewrite negb_false_iff. apply Qle_bool_iff.
Qed.

Lemma gt_true (x y : Q) : Py.gt x y = true <-> y < x.
Proof. apply lt_true. Qed.

Lemma gt_false (x y : Q) : Py.gt x y = false <-> x <= y.
Proof. apply lt_false. Qed.

Lemma max_1_guard (a : Q) : Py.max a 1 == Qmax a 1.
Proof.
  unfold Py.max. destruct (Py.lt a 1) eqn:E.
  - apply lt_true in E. symmetry. apply Q.max_r. lra.
  - apply lt_false in E. symmetry. apply Q.max_l. lra.
Qed.

Lemma max_1_of_ge (a : Q) : 1 <= a -> Py.max a 1 == a.
Proof.
  intros H. unfold Py.max. destruct (Py.lt a 1) eqn:E; [|reflexivity].
  apply lt_true in E. lra.
Qed.

Lemma max_1_pos (a : Q) : 1 <= Py.max a 1.
Proof.
  unfold Py.max. destruct (Py.lt a 1) eqn:E; [lra|].
  now apply lt_false in E.
Qed.

End Comparisons.

(** ** C7: classification and routing *)

(** C7.  With the default thresholds (stable 10, linear 30), a growth rate
    [r] is classified stable when |r| < 10, linear when 10 <= |r| < 30 and
    exponential when |r| >= 30; so 9.999 is stable, 10.0 and 29.999 are
    linear and 30.0 is exponential; and the placer chosen from the pattern
    is the greedy placer for stable and linear and the refined placer for
    exponential. *)
Theorem classification_and_routing (self : Detector.PatternDetector) (r : Q) :
  Detector.stable_threshold self == 10 ->
  Detector.linear_threshold self == 30 ->
  (Qabs r < 10 ->
     Detector.detect_pattern self r = "stable" /\
     Detector.determine_optimal_scheduler (Detector.detect_pattern self r)
     = "greedylb-scheduler") /\
  (10 <= Qabs r -> Qabs r < 30 ->
     Detector.detect_pattern self r = "linear" /\
     Detector.determine_optimal_scheduler (Detector.detect_pattern self r)
     = "greedylb-scheduler") /\
  (30 <= Qabs r ->
     Detector.detect_pattern self r = "exponential" /\
     Detector.determine_optimal_scheduler (Detector.detect_pattern self r)
     = "refinelb-scheduler") /\
  Detector.detect_pattern self 9.999 = "stable" /\
  Detector.detect_pattern self 10.0 = "linear" /\
  Detector.detect_pattern self 29.999 = "linear" /\
  Detector.detect_pattern self 30.0 = "exponential".
Proof.
  intros Hs Hl.
  assert (class : forall x : Q,
    (Qabs x < 10 -> Detector.detect_pattern self x = "stable") /\
    (10 <= Qabs x -> Qabs x < 30 -> Detector.detect_pattern self x = "linear") /\
    (30 <= Qabs x -> Detector.detect_pattern self x = "exponential")).
  { intros x. unfold Detector.detect_pattern, Py.abs.
    destruct (Py.lt (Qabs x) (Detector.stable_threshold self)) eqn:E1;
      [apply lt_true in E1 | apply lt_false in E1];
      (destruct (Py.lt (Qabs x) (Detector.linear_threshold self)) eqn:E2;
       [apply lt_true in E2 | apply lt_false in E2]);
      rewrite ?Hs, ?Hl in *; repeat split; intros; try reflexivity; lra. }
  destruct (class r) as (c1 & c2 & c3).
  split; [|split; [|split]].
  - intros H. rewrite (c1 H). split; reflexivity.
  - intros H1 H2. rewrite (c2 H1 H2). split; reflexivity.
  - intros H. rewrite (c3 H). split; reflexivity.
  - repeat split.
    + apply (class 9.999). vm_compute. reflexivity.
    + apply (class 10.0); vm_compute; [discriminate | reflexivity].
    + apply (class 29.999); vm_compute; [discriminate | reflexivity].
    + apply (class 30.0). vm_compute. discriminate.
Qed.

Lemma classification_and_routing_witness :
  Detector.detect_pattern Detector.default_detector (-12.5) = "linear" /\
  Detector.determine_optimal_scheduler
    (Detector.detect_pattern Detector.default_detector (-12.5)) = "greedylb-scheduler" /\
  Detector.detect_pattern Detector.default_detector 30.0 = "exponential".
Proof.
  assert (Hs : Detector.stable_threshold Detector.default_detector == 10) by reflexivity.
  assert (Hl : Detector.linear_threshold Detector.default_detector == 30) by reflexivity.
  destruct (classification_and_routing Detector.default_detector (-12.5) Hs Hl)
    as (_ & lin & _ & _ & _ & _ & expo).
  assert (H1 : 10 <= Qabs (-12.5)) by (vm_compute; discriminate).
  assert (H2 : Qabs (-12.5) < 30) by (vm_compute; reflexivity).
  destruct (lin H1 H2) as [p s].
  split; [exact p | split; [exact s | exact expo]].
Defined.

(** ** C6: the decision step is idempotent over an unchanged window *)

Section DecisionTwice.
Import Detector.

Lemma switch_loop_count (api : Api) (target : string) (items : list K8s.Deployment)
    (acc : Switched) :
  (0 <= switched_count acc)%Z ->
  (0 <= switched_count (switch_loop api target items acc))%Z.
Proof.
  revert acc. induction items as [|d items IH]; intros acc Hacc;
    cbn [switch_loop].
  - exact Hacc.
  - repeat match goal with
           | |- context [if ?b then _ else _] => destruct b
           end;
      apply IH; cbn [switched_count]; lia.
Qed.

(** [switch_scheduler] never returns a negative count, whatever the API
    answers: the test [switched >= 0] of the loop always passes. *)
Lemma switch_scheduler_count (api : Api) (cl : K8s.Cluster) (target : string) :
  (0 <=? switched_count (switch_scheduler api cl target))%Z = true.
Proof.
  apply Z.leb_le. unfold switch_scheduler.
  destruct (list_deployments_ok api); simpl; [|lia].
  apply switch_loop_count. simpl. lia.
Qed.

Lemma same_scheduler_refl (s : string) : same_scheduler (Some s) s = true.
Proof. apply String.eqb_refl. Qed.

Lemma same_scheduler_eq (o : option string) (s : string) :
  same_scheduler o s = true -> o = Some s.
Proof.
  destruct o as [t|]; simpl; [|discriminate].
  intros H. apply String.eqb_eq in H. now subst.
Qed.

(** The placer that the decision step computes from the window. *)
Let chosen (self : PatternDetector) : string :=
  determine_optimal_scheduler (detect_pattern self (fst (calculate_growth_rate self))).

Lemma decision_step_keep (api : Api) (cl : K8s.Cluster) (self : PatternDetector) :
  same_scheduler (current_scheduler self) (chosen self) = true ->
  decision_step api cl self
  = {| detector_after := self; optimal_scheduler := chosen self;
       patches := []; cluster_after := cl |}.
Proof.
  unfold decision_step, chosen.
  destruct (calculate_growth_rate self) as [growth_rate trend]. cbn [fst].
  intros ->. reflexivity.
Qed.

Lemma decision_step_switch (api : Api) (cl : K8s.Cluster) (self : PatternDetector) :
  same_scheduler (current_scheduler self) (chosen self) = false ->
  detector_after (decision_step api cl self)
  = set_current self (chosen self)
      (detect_pattern self (fst (calculate_growth_rate self))) /\
  optimal_scheduler (decision_step api cl self) = chosen self.
Proof.
  unfold decision_step, chosen.
  destruct (calculate_growth_rate self) as [growth_rate trend]. cbn [fst].
  intros ->. cbn [negb detector_after optimal_scheduler].
  now rewrite switch_scheduler_count.
Qed.

Lemma chosen_set_current (self : PatternDetector) (scheduler pattern : string) :
  chosen (set_current self scheduler pattern) = chosen self.
Proof. reflexivity. Qed.

(** C6.  Running the decision step twice in succession over an unchanged
    sample window chooses the same placer both times and sends no patch on
    the second run, whatever the API server answers and holds on either
    run: after the first run the cached current scheduler is the chosen
    placer (also when no deployment was patched), the window is unchanged,
    and the second run leaves the detector and the cluster as they are. *)
Theorem decision_step_twice
    (api1 api2 : Api) (cl1 cl2 : K8s.Cluster) (self : PatternDetector) :
  let first := decision_step api1 cl1 self in
  let second := decision_step api2 cl2 (detector_after first) in
  current_scheduler (detector_after first) = Some (optimal_scheduler first) /\
  pod_count_history (detector_after first) = pod_count_history self /\
  optimal_scheduler second = optimal_scheduler first /\
  patches second = [] /\
  cluster_after second = cl2 /\
  detector_after second = detector_after first.
Proof.
  cbv zeta.
  destruct (same_scheduler (current_scheduler self) (chosen self)) eqn:Es.
  - rewrite (decision_step_keep api1 cl1 self Es).
    cbn [detector_after optimal_scheduler].
    rewrite (decision_step_keep api2 cl2 self Es).
    cbn [detector_after optimal_scheduler patches cluster_after].
    repeat split. now apply same_scheduler_eq.
  - destruct (decision_step_switch api1 cl1 self Es) as [-> ->].
    set (pattern := detect_pattern self (fst (calculate_growth_rate self))).
    assert (Es' : same_scheduler
                    (current_scheduler (set_current self (chosen self) pattern))
                    (chosen (set_current self (chosen self) pattern)) = true)
      by (rewrite chosen_set_current; apply same_scheduler_refl).
    rewrite (decision_step_keep api2 cl2 _ Es').
    cbn [detector_after optimal_scheduler patches cluster_after].
    repeat split.
Qed.

End DecisionTwice.

(** ** C1: the growth rate of a sample window *)

Section GrowthRate.
Import Detector.

Lemma positive_iff_nonzero (n : N) : (0 <? n)%N = negb (n =? 0)%N.
Proof.
  destruct (N.eqb_spec n 0) as [->|Hn]; [reflexivity|].
  apply N.ltb_lt. lia.
Qed.

(** The loop of the source computes the changes of exactly those steps
    whose predecessor is not zero. *)
Lemma step_rates_filter (w : list N) :
  step_rates w
  = map Spec.pct_change (List.filter Spec.nonzero_predecessor (Spec.steps w)).
Proof.
  induction w as [|prev rest IH]; [reflexivity|].
  destruct rest as [|curr rest]; [reflexivity|].
  change (Spec.steps (prev :: curr :: rest))
    with ((prev, curr) :: Spec.steps (curr :: rest)).
  change (step_rates (prev :: curr :: rest))
    with (if (0 <? prev)%N
          then Spec.pct_change (prev, curr) :: step_rates (curr :: rest)
          else step_rates (curr :: rest)).
  rewrite IH, positive_iff_nonzero.
  cbn [List.filter].
  change (Spec.nonzero_predecessor (prev, curr)) with (negb (prev =? 0)%N).
  destruct (negb (prev =? 0)%N); reflexivity.
Qed.

Lemma filter_all {A} (f : A -> bool) (l : list A) :
  forallb f l = true -> List.filter f l = l.
Proof.
  induction l as [|x l IH]; simpl; [reflexivity|].
  intros H. apply andb_true_iff in H as [-> H]. now rewrite IH.
Qed.

Lemma step_rates_first (prev curr : N) (rest : list N) :
  prev <> 0%N -> exists x xs, step_rates (prev :: curr :: rest) = x :: xs.
Proof.
  intros H. cbn [step_rates]. rewrite positive_iff_nonzero.
  destruct (N.eqb_spec prev 0); [contradiction|]. simpl. eauto.
Qed.

End GrowthRate.

(** C1, as the code has it.  For every sample window of the detector:
    rate 0, trend "insufficient_data" with fewer than 2 samples; rate 100,
    "startup" when the oldest sample is 0 and the newest is positive; rate 0,
    "no_pods" when both are 0; with at least 3 samples and a non-zero oldest
    sample, the mean of the per-step percentage changes
    (curr-prev)/prev*100 over the steps whose predecessor is not zero,
    trend "calculated" (the mean over all steps when every predecessor is
    non-zero); and with exactly 2 samples and a non-zero oldest sample the
    rate (newest-oldest)/oldest*100, trend "simple".  The window [2,3,4]
    gives the mean of 50 and 100/3, that is 125/3 (41.67 to two decimals),
    trend "calculated". *)
Theorem growth_rate_by_cases (self : Detector.PatternDetector) :
  let w := Detector.pod_count_history self in
  let oldest := hd 0%N w in
  let newest := List.last w 0%N in
  let r := Detector.calculate_growth_rate self in
  ((length w < 2)%nat -> r = (0, "insufficient_data")) /\
  ((2 <= length w)%nat -> oldest = 0%N -> (0 < newest)%N -> r = (100, "startup")) /\
  ((2 <= length w)%nat -> oldest = 0%N -> newest = 0%N -> r = (0, "no_pods")) /\
  ((3 <= length w)%nat -> forallb Spec.nonzero_predecessor (Spec.steps w) = true ->
     r = (Spec.mean (map Spec.pct_change (Spec.steps w)), "calculated")) /\
  ((3 <= length w)%nat -> oldest <> 0%N ->
     r = (Spec.mean (map Spec.pct_change
                       (List.filter Spec.nonzero_predecessor (Spec.steps w))),
          "calculated")) /\
  (length w = 2%nat -> oldest <> 0%N ->
     r = (((Detector.num newest - Detector.num oldest) / Detector.num oldest) * 100,
          "simple")) /\
  (w = [2; 3; 4]%N ->
     fst r == 125 / 3 /\ snd r = "calculated" /\
     Spec.mean [50; 100 / 3] == 125 / 3 /\ Qabs (fst r - 41.67) < 0.005).
Proof.
  cbv zeta. unfold Detector.calculate_growth_rate.
  set (w := Detector.pod_count_history self).
  assert (three : (3 <= length w)%nat -> hd 0%N w <> 0%N ->
    (if (length w <? 2)%nat then (0, "insufficient_data")
     else if (hd 0%N w =? 0)%N
          then if (0 <? List.last w 0%N)%N then (100, "startup") else (0, "no_pods")
          else if (3 <=? length w)%nat
               then match Detector.step_rates w with
                    | [] => (((Detector.num (List.last w 0%N) - Detector.num (hd 0%N w))
                              / Detector.num (hd 0%N w)) * 100, "simple")
                    | _ :: _ => (Py.sum (Detector.step_rates w)
                                 / Py.len (Detector.step_rates w), "calculated")
                    end
               else (((Detector.num (List.last w 0%N) - Detector.num (hd 0%N w))
                      / Detector.num (hd 0%N w)) * 100, "simple"))
    = (Spec.mean (map Spec.pct_change
                    (List.filter Spec.nonzero_predecessor (Spec.steps w))),
       "calculated")).
  { intros Hlen Hold.
    destruct (Nat.ltb_spec (length w) 2) as [?|_]; [lia|].
    destruct (N.eqb_spec (hd 0%N w) 0) as [?|_]; [contradiction|].
    destruct (Nat.leb_spec 3 (length w)) as [_|?]; [|lia].
    destruct w as [|prev [|curr rest]]; [simpl in Hlen; lia .. |].
    destruct (step_rates_first prev curr rest Hold) as (x & xs & E).
    rewrite <- step_rates_filter. rewrite E. reflexivity. }
  repeat apply conj.
  - intros H. now destruct (Nat.ltb_spec (length w) 2) as [_|?]; [|lia].
  - intros H Hold Hnew.
    destruct (Nat.ltb_spec (length w) 2) as [?|_]; [lia|].
    rewrite Hold. cbn [N.eqb]. apply N.ltb_lt in Hnew. now rewrite Hnew.
  - intros H Hold Hnew.
    destruct (Nat.ltb_spec (length w) 2) as [?|_]; [lia|].
    rewrite Hold, Hnew. reflexivity.
  - intros Hlen Hall. rewrite <- (filter_all _ _ Hall) at 1.
    apply three; [exact Hlen|].
    destruct w as [|prev [|curr rest]]; [simpl in Hlen; lia .. |].
    change (Spec.steps (prev :: curr :: rest))
      with ((prev, curr) :: Spec.steps (curr :: rest)) in Hall.
    cbn [forallb] in Hall. apply andb_true_iff in Hall as [Hp _].
    unfold Spec.nonzero_predecessor in Hp. cbn [fst hd] in *.
    destruct (N.eqb_spec prev 0); [discriminate | assumption].
  - exact three.
  - intros Hlen Hold.
    destruct (Nat.ltb_spec (length w) 2) as [?|_]; [lia|].
    destruct (N.eqb_spec (hd 0%N w) 0) as [?|_]; [contradiction|].
    destruct (Nat.leb_spec 3 (length w)) as [?|_]; [lia|]. reflexivity.
  - intros ->. vm_compute. repeat split; reflexivity.
Qed.

Lemma growth_rate_by_cases_witness :
  Detector.calculate_growth_rate (Detector.holding [5]%N) = (0, "insufficient_data") /\
  Detector.calculate_growth_rate (Detector.holding [0; 5]%N) = (100, "startup") /\
  Detector.calculate_growth_rate (Detector.holding [0; 0]%N) = (0, "no_pods") /\
  Detector.calculate_growth_rate (Detector.holding [2; 3; 4]%N)
  = (Spec.mean (map Spec.pct_change (Spec.steps [2; 3; 4]%N)), "calculated") /\
  Detector.calculate_growth_rate (Detector.holding [2; 0; 4]%N)
  = (Spec.mean (map Spec.pct_change
                  (List.filter Spec.nonzero_predecessor (Spec.steps [2; 0; 4]%N))),
     "calculated") /\
  Detector.calculate_growth_rate (Detector.holding [4; 6]%N)
  = (((Detector.num 6 - Detector.num 4) / Detector.num 4) * 100, "simple") /\
  fst (Detector.calculate_growth_rate (Detector.holding [2; 3; 4]%N)) == 125 / 3.
Proof.
  split; [|split; [|split; [|split; [|split; [|split]]]]].
  - destruct (growth_rate_by_cases (Detector.holding [5]%N)) as (c & _).
    apply c. simpl. lia.
  - destruct (growth_rate_by_cases (Detector.holding [0; 5]%N)) as (_ & c & _).
    apply c; simpl; [lia | reflexivity | lia].
  - destruct (growth_rate_by_cases (Detector.holding [0; 0]%N)) as (_ & _ & c & _).
    apply c; simpl; [lia | reflexivity | reflexivity].
  - destruct (growth_rate_by_cases (Detector.holding [2; 3; 4]%N))
      as (_ & _ & _ & c & _).
    apply c; simpl; [lia | reflexivity].
  - destruct (growth_rate_by_cases (Detector.holding [2; 0; 4]%N))
      as (_ & _ & _ & _ & c & _).
    apply c; simpl; [lia | discriminate].
  - destruct (growth_rate_by_cases (Detector.holding [4; 6]%N))
      as (_ & _ & _ & _ & _ & c & _).
    apply c; simpl; [reflexivity | discriminate].
  - destruct (growth_rate_by_cases (Detector.holding [2; 3; 4]%N))
      as (_ & _ & _ & _ & _ & _ & c).
    destruct (c eq_refl) as (v & _). exact v.
Defined.

(** The window [2, 0, 4]: at least 3 samples, oldest sample non-zero, one
    predecessor zero.  The specification's wording gives the simple rate
    (4-2)/2*100 = 100 with trend "simple"; the code averages the one step
    whose predecessor is not zero, (0-2)/2*100 = -100, with trend
    "calculated". *)
Lemma growth_rate_window_2_0_4 :
  let code := Detector.calculate_growth_rate (Detector.holding [2; 0; 4]%N) in
  let spec := Spec.growth_rate [2; 0; 4]%N in
  (fst spec == 100 /\ snd spec = "simple") /\
  (fst code == -100 /\ snd code = "calculated") /\
  ~ (fst code == fst spec /\ snd code = snd spec).
Proof.
  cbv zeta. split; [|split].
  - vm_compute. split; reflexivity.
  - vm_compute. split; reflexivity.
  - intros [_ H]. vm_compute in H. discriminate.
Qed.

(** ** C5: the resource request of a pod *)

Section PodRequests.
Import K8s.

Lemma same_outcome_refl (o : Outcome Q) : Spec.same_outcome o o.
Proof. destruct o; simpl; [reflexivity | exact I]. Qed.

(** How the specification's reading of a container relates to the test
    [container.resources and container.resources.requests] of the code. *)
Lemma declared_of_truthy (c : Container) :
  match truthy_requests c with
  | Some req => Spec.declared_requests c = req /\ req <> ∅
  | None => Spec.declared_requests c = ∅
  end.
Proof.
  unfold truthy_requests, Spec.declared_requests.
  destruct (resources c) as [r|]; [|reflexivity].
  destruct (requests r) as [m|]; [|reflexivity].
  destruct (decide (m = ∅)); [assumption | now split].
Qed.

Lemma amount_skipped (parse : string -> Outcome Q) (key : string) (missing : Q)
    (c : Container) :
  truthy_requests c = None -> Spec.amount parse key missing c = Returned 0.
Proof.
  intros H. pose proof (declared_of_truthy c) as D. rewrite H in D.
  unfold Spec.amount. rewrite D. now destruct (decide (∅ = ∅)).
Qed.

Lemma amount_declared (parse : string -> Outcome Q) (key : string) (missing : Q)
    (c : Container) (req : gmap string string) :
  truthy_requests c = Some req ->
  Spec.amount parse key missing c
  = match req !! key with
    | Some quantity => parse quantity
    | None => Returned missing
    end.
Proof.
  intros H. pose proof (declared_of_truthy c) as D. rewrite H in D.
  destruct D as [D Hne]. unfold Spec.amount. rewrite D.
  now destruct (decide (req = ∅)).
Qed.

(** The accumulating loop of the code computes the two sums of the
    specification, added to what the accumulators held; it raises exactly
    when one of the sums does. *)
Lemma add_requests_totals (d1 d2 : string) (m1 m2 : Q) (cs : list Container)
    (acc : Q * Q) :
  Forall (Derived.reads_alike d1 d2 m1 m2) cs ->
  match add_requests d1 d2 cs acc,
        Spec.total (map (Spec.amount Resources.parse_cpu "cpu" m1) cs),
        Spec.total (map (Spec.amount Resources.parse_memory "memory" m2) cs) with
  | Returned r, Returned c, Returned m => fst r == fst acc + c /\ snd r == snd acc + m
  | Raised, Raised, _ => True
  | Raised, _, Raised => True
  | _, _, _ => False
  end.
Proof.
  intros H. revert acc. induction H as [|c cs Hc _ IH]; intros acc.
  - cbn. split; ring.
  - cbn [add_requests map Spec.total fold_right].
    fold (Spec.total (map (Spec.amount Resources.parse_cpu "cpu" m1) cs)).
    fold (Spec.total (map (Spec.amount Resources.parse_memory "memory" m2) cs)).
    destruct (truthy_requests c) as [req|] eqn:Et.
    + destruct (Hc req Et) as [Hcpu Hmem].
      destruct (Resources.parse_cpu (get req "cpu" d1)) as [x|],
               (Spec.amount Resources.parse_cpu "cpu" m1 c) as [x'|];
        cbn in Hcpu; try contradiction; cbn [bind_outcome].
      * destruct (Resources.parse_memory (get req "memory" d2)) as [y|],
                 (Spec.amount Resources.parse_memory "memory" m2 c) as [y'|];
          cbn in Hmem; try contradiction; cbn [bind_outcome].
        -- specialize (IH (fst acc + x, snd acc + y)).
           destruct (add_requests d1 d2 cs _) as [r|],
                    (Spec.total (map (Spec.amount Resources.parse_cpu "cpu" m1) cs)) as [tc|],
                    (Spec.total (map (Spec.amount Resources.parse_memory "memory" m2) cs))
                      as [tm|];
             cbn [bind_outcome fst snd] in *; try contradiction; try exact I.
           destruct IH as [I1 I2]. split; lra.
        -- destruct (Spec.total (map (Spec.amount Resources.parse_cpu "cpu" m1) cs));
             cbn [bind_outcome]; exact I.
      * exact I.
    + rewrite (amount_skipped _ _ _ c Et), (amount_skipped _ _ _ c Et).
      cbn [bind_outcome]. specialize (IH acc).
      destruct (add_requests d1 d2 cs acc) as [r|],
               (Spec.total (map (Spec.amount Resources.parse_cpu "cpu" m1) cs)) as [tc|],
               (Spec.total (map (Spec.amount Resources.parse_memory "memory" m2) cs))
                 as [tm|];
        cbn [bind_outcome] in *; try contradiction; try exact I.
      destruct IH as [I1 I2]. split; lra.
Qed.

Lemma or_default_eq (x y dflt : Q) :
  x == y -> (if Py.eq x 0 then dflt else x) == Spec.or_default y dflt.
Proof.
  intros H. unfold Py.eq, Spec.or_default. rewrite (Qeqb_comp x y H 0 0 (Qeq_refl 0)).
  now destruct (Qeq_bool y 0).
Qed.

(** The request of the code against a request of the specification, for a
    pod whose containers read alike. *)
Lemma request_totals (m1 m2 : Q) (pod : Pod) :
  Forall (Derived.reads_alike "100m" "128Mi" m1 m2) (containers_of pod) ->
  Spec.same_request (RefineLB.get_pod_resource_requests pod) (Spec.request_with m1 m2 pod).
Proof.
  intros H. pose proof (add_requests_totals "100m" "128Mi" m1 m2 _ (0, 0) H) as T.
  unfold RefineLB.get_pod_resource_requests, Spec.request_with.
  change (match containers pod with Some cs => cs | None => [] end)
    with (containers_of pod).
  destruct (add_requests "100m" "128Mi" (containers_of pod) (0, 0)) as [r|],
           (Spec.total (map (Spec.amount Resources.parse_cpu "cpu" m1) (containers_of pod)))
             as [tc|],
           (Spec.total (map (Spec.amount Resources.parse_memory "memory" m2)
                          (containers_of pod))) as [tm|];
    cbn [bind_outcome Spec.same_request] in *; try contradiction; try exact I.
  destruct T as [T1 T2]. cbn [fst snd RefineLB.cpu RefineLB.memory] in *.
  split; apply or_default_eq; lra.
Qed.

(** With the per-key defaults every container reads alike. *)
Lemma reads_alike_keyed (c : Container) :
  Derived.reads_alike "100m" "128Mi" 100 (128 * 1024 * 1024) c.
Proof.
  intros req Ht.
  rewrite (amount_declared _ "cpu" _ c req Ht), (amount_declared _ "memory" _ c req Ht).
  unfold get. split.
  - destruct (req !! "cpu"); [apply same_outcome_refl | vm_compute; reflexivity].
  - destruct (req !! "memory"); [apply same_outcome_refl | vm_compute; reflexivity].
Qed.

(** A container that declares both resources reads alike whatever a
    missing key would count as. *)
Lemma reads_alike_both (m1 m2 : Q) (c : Container) :
  Spec.declares_both c -> Derived.reads_alike "100m" "128Mi" m1 m2 c.
Proof.
  intros Hb req Ht.
  rewrite (amount_declared _ "cpu" _ c req Ht), (amount_declared _ "memory" _ c req Ht).
  pose proof (declared_of_truthy c) as D. rewrite Ht in D. destruct D as [D Hne].
  unfold Spec.declares_both in Hb. rewrite D in Hb.
  destruct Hb as [E | [[x Hx] [y Hy]]]; [contradiction|].
  unfold get. rewrite Hx, Hy. split; apply same_outcome_refl.
Qed.

End PodRequests.

(** C5, as the code has it.  For every pod, the request RefineLB uses is the
    sum over the containers that declare a non-empty requests map of their
    CPU requests and of their memory requests, where a map that omits the
    cpu key counts as 100m and a map that omits the memory key counts as
    128Mi; where such a sum is zero the defaults 100 millicores and
    128*1024*1024 bytes are used; and it raises exactly when one of the
    requests does not parse.  For pods whose non-empty requests maps all
    name both keys this is the sum of the container requests, with the
    defaults for a zero sum. *)
Theorem pod_request_with_key_defaults (pod : K8s.Pod) :
  Spec.same_request (RefineLB.get_pod_resource_requests pod) (Spec.pod_request_keyed pod) /\
  (Forall Spec.declares_both (K8s.containers_of pod) ->
   Spec.same_request (RefineLB.get_pod_resource_requests pod) (Spec.pod_request pod)).
Proof.
  split.
  - apply request_totals. apply List.Forall_forall. intros c _. apply reads_alike_keyed.
  - intros H. apply request_totals. rewrite List.Forall_forall in *.
    intros c Hc. apply reads_alike_both. now apply H.
Qed.

Lemma pod_request_with_key_defaults_witness :
  Spec.same_request (RefineLB.get_pod_resource_requests Scenario.small_pod)
    (Spec.pod_request Scenario.small_pod).
Proof.
  apply (pod_request_with_key_defaults Scenario.small_pod).
  apply List.Forall_cons; [|apply List.Forall_nil].
  right. split; eexists; reflexivity.
Defined.

(** A pod of two containers, the first requesting 200m of CPU and the second
    declaring memory only: the sum of the container CPU requests is 200, the
    code uses 300. *)
Lemma pod_request_sidecar :
  (exists code spec,
      RefineLB.get_pod_resource_requests Scenario.sidecar_pod = Returned code /\
      Spec.pod_request Scenario.sidecar_pod = Returned spec /\
      RefineLB.cpu code == 300 /\ RefineLB.cpu spec == 200) /\
  ~ (exists code spec,
        RefineLB.get_pod_resource_requests Scenario.sidecar_pod = Returned code /\
        Spec.pod_request Scenario.sidecar_pod = Returned spec /\
        RefineLB.cpu code == RefineLB.cpu spec /\
        RefineLB.memory code == RefineLB.memory spec).
Proof.
  split.
  - eexists _, _. split; [vm_compute; reflexivity|].
    split; [vm_compute; reflexivity|]. split; reflexivity.
  - intros (code & spec & Hc & Hs & Hcpu & _).
    vm_compute in Hc, Hs. injection Hc as <-. injection Hs as <-.
    vm_compute in Hcpu. discriminate.
Qed.

(** ** Candidates and selection *)

Section Selection.
Import K8s.

Lemma is_ready_iff (node : Node) : is_ready node = true <-> has_ready_condition node.
Proof.
  unfold is_ready, has_ready_condition. rewrite existsb_exists.
  split; intros (c & Hin & H); exists c; (split; [exact Hin|]).
  - apply andb_true_iff in H as [H1 H2].
    split; [now apply String.eqb_eq in H1 | now apply String.eqb_eq in H2].
  - destruct H as [-> ->]. reflexivity.
Qed.

Lemma is_schedulable_iff (node : Node) : is_schedulable node = true <-> not_cordoned node.
Proof.
  unfold is_schedulable, not_cordoned.
  destruct (unschedulable node) as [[|]|]; simpl; split; intros H;
    try reflexivity; try discriminate; auto.
  destruct H; discriminate.
Qed.

(** The candidate set is exactly the ready, uncordoned nodes of the cluster. *)
Lemma schedulable_iff (cl : Cluster) (node : Node) :
  In node (get_schedulable_nodes cl)
  <-> In node (nodes cl) /\ has_ready_condition node /\ not_cordoned node.
Proof.
  unfold get_schedulable_nodes. rewrite filter_In, andb_true_iff.
  now rewrite is_ready_iff, is_schedulable_iff.
Qed.

(** The greedy loop only ever holds a node of the list it walks. *)
Lemma greedy_fold_in (cl : Cluster) (nodes : list Node) (best : option Node * Q)
    (node : Node) :
  fst (fold_left (GreedyLB.select_step cl) nodes best) = Some node ->
  fst best = Some node \/ In node nodes.
Proof.
  revert best. induction nodes as [|n nodes IH]; intros best H; [now left|].
  cbn [fold_left] in H. apply IH in H as [H|H]; [|right; now right].
  unfold GreedyLB.select_step in H.
  destruct (Py.gt _ _); cbn [fst] in H; [|now left].
  right. left. congruence.
Qed.

Lemma greedy_select_in (cl : Cluster) (nodes : list Node) (node : Node) :
  GreedyLB.select_best_node cl nodes = Some node -> In node nodes.
Proof.
  unfold GreedyLB.select_best_node. destruct nodes as [|n nodes]; [discriminate|].
  intros H. apply greedy_fold_in in H as [H|H]; [discriminate | exact H].
Qed.

Lemma insert_desc_in (x y : Node * Q) (l : list (Node * Q)) :
  In y (RefineLB.insert_desc x l) -> y = x \/ In y l.
Proof.
  induction l as [|z l IH]; simpl.
  - intros [<-|[]]. now left.
  - destruct (Py.gt (snd z) (snd x)); simpl.
    + intros [<-|H]; [right; now left|].
      apply IH in H as [H|H]; [now left | right; now right].
    + intros [<-|H]; [now left | now right].
Qed.

Lemma sort_desc_in (y : Node * Q) (l : list (Node * Q)) :
  In y (RefineLB.sort_desc l) -> In y l.
Proof.
  induction l as [|x l IH]; [intros []|].
  cbn [RefineLB.sort_desc fold_right]. intros H.
  apply insert_desc_in in H as [->|H]; [now left | right; now apply IH].
Qed.

(** An entry of [scored_nodes] is a node of the list with its score, and
    the score is positive. *)
Lemma score_nodes_in (cl : Cluster) (req : RefineLB.PodRequest)
    (all : list RefineLB.Usage) (nodes : list Node) (node : Node) (score : Q) :
  In (node, score) (RefineLB.score_nodes cl req all nodes) ->
  In node nodes /\
  score = RefineLB.calculate_refined_score cl node req all /\ 0 < score.
Proof.
  induction nodes as [|n nodes IH]; [intros []|].
  cbn [RefineLB.score_nodes].
  destruct (Py.gt (RefineLB.calculate_refined_score cl n req all) 0) eqn:E.
  - intros [H|H].
    + injection H as <- <-. apply gt_true in E. repeat split; [now left | exact E].
    + apply IH in H as (? & ? & ?). repeat split; [now right | assumption ..].
  - intros H. apply IH in H as (? & ? & ?). repeat split; [now right | assumption ..].
Qed.

(** What a successful selection of RefineLB went through. *)
Lemma refine_select_scored (cl : Cluster) (nodes : list Node) (pod : Pod) (node : Node) :
  RefineLB.select_best_node cl nodes pod = Returned (Some node) ->
  exists req,
    RefineLB.get_pod_resource_requests pod = Returned req /\
    In node nodes /\
    0 < RefineLB.calculate_refined_score cl node req (RefineLB.collect_usage cl nodes).
Proof.
  unfold RefineLB.select_best_node. destruct nodes as [|n0 nodes0]; [discriminate|].
  set (nodes := n0 :: nodes0).
  destruct (RefineLB.get_pod_resource_requests pod) as [req|]; [|discriminate].
  cbn [bind_outcome].
  destruct (RefineLB.collect_usage cl nodes) as [|u0 all0] eqn:Eall; [discriminate|].
  destruct (RefineLB.sort_desc _) as [|[best score] sorted] eqn:Esort; [discriminate|].
  intros H. injection H as ->.
  assert (Hin : In (node, score) (RefineLB.sort_desc
            (RefineLB.score_nodes cl req (u0 :: all0) nodes)))
    by (rewrite Esort; now left).
  apply sort_desc_in, score_nodes_in in Hin as (Hn & -> & Hpos).
  exists req. repeat split; assumption.
Qed.

End Selection.

(** ** C8: only ready, uncordoned nodes are chosen *)

(** C8.  The candidate set of either placer is exactly the nodes of the
    cluster that have a Ready condition with status True and are not
    cordoned (unschedulable absent or false); every node that GreedyLB or
    RefineLB selects is such a node, and every binding either placer posts
    targets such a node. *)
Theorem chosen_node_ready_and_uncordoned
    (accepts : K8s.Binding -> bool) (cl : K8s.Cluster) (pod : K8s.Pod) :
  let fit node := In node (K8s.nodes cl) /\ has_ready_condition node /\ not_cordoned node in
  (forall node, In node (K8s.get_schedulable_nodes cl) <-> fit node) /\
  (forall node,
      GreedyLB.select_best_node cl (K8s.get_schedulable_nodes cl) = Some node ->
      fit node) /\
  (forall node,
      RefineLB.select_best_node cl (K8s.get_schedulable_nodes cl) pod
      = Returned (Some node) ->
      fit node) /\
  (forall b, snd (GreedyLB.schedule_pod accepts cl pod) = Some b ->
             exists node, K8s.node_name node = K8s.binding_target b /\ fit node) /\
  (forall b, posted (RefineLB.schedule_pod accepts cl pod) = Some b ->
             exists node, K8s.node_name node = K8s.binding_target b /\ fit node).
Proof.
  cbv zeta.
  assert (G : forall node,
    GreedyLB.select_best_node cl (K8s.get_schedulable_nodes cl) = Some node ->
    In node (K8s.nodes cl) /\ has_ready_condition node /\ not_cordoned node).
  { intros node H. apply schedulable_iff. now apply greedy_select_in in H. }
  assert (R : forall node,
    RefineLB.select_best_node cl (K8s.get_schedulable_nodes cl) pod
    = Returned (Some node) ->
    In node (K8s.nodes cl) /\ has_ready_condition node /\ not_cordoned node).
  { intros node H. apply schedulable_iff.
    apply refine_select_scored in H as (req & _ & Hin & _). exact Hin. }
  split; [apply schedulable_iff|]. split; [exact G|]. split; [exact R|]. split.
  - intros b. unfold GreedyLB.schedule_pod.
    destruct (K8s.get_schedulable_nodes cl) as [|n0 ns] eqn:Ec; [discriminate|].
    destruct (GreedyLB.select_best_node cl (n0 :: ns)) as [sel|] eqn:Es; [|discriminate].
    cbn. intros H. injection H as <-. exists sel. split; [reflexivity | now apply G].
  - intros b. unfold RefineLB.schedule_pod.
    destruct (K8s.get_schedulable_nodes cl) as [|n0 ns] eqn:Ec; [discriminate|].
    destruct (RefineLB.select_best_node cl (n0 :: ns) pod) as [[sel|]|] eqn:Es;
      [|discriminate ..].
    cbn. intros H. injection H as <-. exists sel. split; [reflexivity | now apply R].
Qed.

Lemma chosen_node_ready_and_uncordoned_witness :
  (exists node, K8s.node_name node = "node-a"
                /\ In node (K8s.nodes Scenario.cluster_abcd)
                /\ has_ready_condition node /\ not_cordoned node) /\
  (In Scenario.node_b (K8s.nodes Scenario.cluster_abcd)
   /\ has_ready_condition Scenario.node_b /\ not_cordoned Scenario.node_b).
Proof.
  destruct (chosen_node_ready_and_uncordoned
              Scenario.accepting Scenario.cluster_abcd Scenario.small_pod)
    as (cand & _ & _ & greedy & refine).
  split.
  - apply (refine {| K8s.binding_namespace := "default";
                     K8s.binding_pod := "small";
                     K8s.binding_target := "node-a" |}).
    vm_compute. reflexivity.
  - apply cand. vm_compute. auto.
Defined.

(** ** C2: selection when no candidate scores above zero *)

Section ZeroScores.
Import K8s.

(** Once the greedy loop holds a node it holds one to the end. *)
Lemma greedy_fold_some (cl : Cluster) (nodes : list Node) (best : option Node * Q) :
  fst best <> None -> fst (fold_left (GreedyLB.select_step cl) nodes best) <> None.
Proof.
  revert best. induction nodes as [|n nodes IH]; intros best H; [exact H|].
  cbn [fold_left]. apply IH. unfold GreedyLB.select_step.
  destruct (Py.gt _ _); [discriminate | exact H].
Qed.

(** Scores that do not exceed the best so far leave the loop state alone. *)
Lemma greedy_fold_keep (cl : Cluster) (nodes : list Node) (best : option Node * Q) :
  (forall node, In node nodes -> GreedyLB.calculate_node_score cl node <= snd best) ->
  fold_left (GreedyLB.select_step cl) nodes best = best.
Proof.
  revert best. induction nodes as [|n nodes IH]; intros best H; [reflexivity|].
  cbn [fold_left]. unfold GreedyLB.select_step at 2.
  destruct (Py.gt _ _) eqn:E.
  - apply gt_true in E. specialize (H n (or_introl eq_refl)). lra.
  - apply IH. intros node Hin. apply H. now right.
Qed.

Lemma greedy_fold_none (cl : Cluster) (nodes : list Node) (best : option Node * Q) :
  fst (fold_left (GreedyLB.select_step cl) nodes best) = None ->
  forall node, In node nodes -> GreedyLB.calculate_node_score cl node <= snd best.
Proof.
  revert best. induction nodes as [|n nodes IH]; intros best H node Hin; [destruct Hin|].
  cbn [fold_left] in H. unfold GreedyLB.select_step in H at 2.
  destruct (Py.gt (GreedyLB.calculate_node_score cl n) (snd best)) eqn:E.
  - exfalso. revert H. apply greedy_fold_some. discriminate.
  - apply gt_false in E. destruct Hin as [<-|Hin]; [exact E | now apply (IH best)].
Qed.

(** GreedyLB selects no node exactly when there is no candidate or every
    score is at most the initial [best_score], -1. *)
Lemma greedy_select_none (cl : Cluster) (nodes : list Node) :
  GreedyLB.select_best_node cl nodes = None
  <-> nodes = [] \/
      forall node, In node nodes -> GreedyLB.calculate_node_score cl node <= -1.
Proof.
  unfold GreedyLB.select_best_node. destruct nodes as [|n nodes].
  - split; [now left | reflexivity].
  - split.
    + intros H. right. now apply (greedy_fold_none cl (n :: nodes) (None, -1)).
    + intros [H|H]; [discriminate|].
      now rewrite (greedy_fold_keep cl (n :: nodes) (None, -1)).
Qed.

(** With every score zero, GreedyLB selects the first candidate. *)
Lemma greedy_select_all_zero (cl : Cluster) (first : Node) (rest : list Node) :
  (forall node, In node (first :: rest) -> GreedyLB.calculate_node_score cl node == 0) ->
  GreedyLB.select_best_node cl (first :: rest) = Some first.
Proof.
  intros H. unfold GreedyLB.select_best_node. cbn [fold_left].
  unfold GreedyLB.select_step at 2. cbn [snd].
  assert (H0 := H first (or_introl eq_refl)).
  destruct (Py.gt _ _) eqn:E; [|apply gt_false in E; lra].
  rewrite greedy_fold_keep; [reflexivity|].
  intros node Hin. cbn [snd]. rewrite H0, (H node (or_intror Hin)). lra.
Qed.

(** RefineLB selects no node whose score is not positive. *)
Lemma refine_select_positive (cl : Cluster) (nodes : list Node) (pod : Pod) :
  (forall req node,
      RefineLB.get_pod_resource_requests pod = Returned req -> In node nodes ->
      RefineLB.calculate_refined_score cl node req (RefineLB.collect_usage cl nodes) <= 0) ->
  forall node, RefineLB.select_best_node cl nodes pod <> Returned (Some node).
Proof.
  intros H node Hsel.
  apply refine_select_scored in Hsel as (req & Hreq & Hin & Hpos).
  specialize (H req node Hreq Hin). lra.
Qed.

End ZeroScores.

(** C2, as the code has it.  RefineLB: if no candidate has a total score
    strictly greater than 0 (in particular if every candidate scores zero),
    node selection returns no node and no binding is posted: the pod is left
    pending.  GreedyLB: node selection returns no node exactly when there
    is no candidate or every candidate scores at most -1, the initial best
    score, and then no binding is posted; when every candidate scores zero
    it returns the first candidate, and the binding to it is posted. *)
Theorem selection_without_positive_score
    (accepts : K8s.Binding -> bool) (cl : K8s.Cluster) (pod : K8s.Pod) :
  let candidates := K8s.get_schedulable_nodes cl in
  ((forall req node,
       RefineLB.get_pod_resource_requests pod = Returned req -> In node candidates ->
       RefineLB.calculate_refined_score cl node req (RefineLB.collect_usage cl candidates)
       <= 0) ->
   (forall node, RefineLB.select_best_node cl candidates pod <> Returned (Some node)) /\
   posted (RefineLB.schedule_pod accepts cl pod) = None) /\
  (GreedyLB.select_best_node cl candidates = None
   <-> candidates = [] \/
       forall node, In node candidates -> GreedyLB.calculate_node_score cl node <= -1) /\
  (GreedyLB.select_best_node cl candidates = None ->
   GreedyLB.schedule_pod accepts cl pod = (false, None)) /\
  (forall first rest,
      candidates = first :: rest ->
      (forall node, In node candidates -> GreedyLB.calculate_node_score cl node == 0) ->
      GreedyLB.select_best_node cl candidates = Some first /\
      snd (GreedyLB.schedule_pod accepts cl pod)
      = Some {| K8s.binding_namespace := K8s.pod_namespace pod;
                K8s.binding_pod := K8s.pod_name pod;
                K8s.binding_target := K8s.node_name first |}).
Proof.
  cbv zeta. split; [|split; [|split]].
  - intros H. pose proof (refine_select_positive cl _ pod H) as Hsel.
    split; [exact Hsel|].
    unfold RefineLB.schedule_pod.
    destruct (K8s.get_schedulable_nodes cl) as [|n0 ns]; [reflexivity|].
    destruct (RefineLB.select_best_node cl (n0 :: ns) pod) as [[sel|]|] eqn:Es;
      [|reflexivity ..].
    now destruct (Hsel sel).
  - apply greedy_select_none.
  - intros H. unfold GreedyLB.schedule_pod.
    destruct (K8s.get_schedulable_nodes cl); [reflexivity|]. now rewrite H.
  - intros first rest Ec Hzero. unfold GreedyLB.schedule_pod.
    rewrite Ec in *. rewrite (greedy_select_all_zero cl first rest Hzero).
    split; reflexivity.
Qed.

Lemma selection_without_positive_score_witness :
  posted (RefineLB.schedule_pod Scenario.accepting Scenario.cluster_full Scenario.small_pod)
  = None /\
  GreedyLB.select_best_node Scenario.cluster_full
    (K8s.get_schedulable_nodes Scenario.cluster_full) = Some Scenario.node_full.
Proof.
  destruct (selection_without_positive_score
              Scenario.accepting Scenario.cluster_full Scenario.small_pod)
    as (refine & _ & _ & greedy).
  split.
  - apply refine. intros req node Hreq [<-|[]].
    vm_compute in Hreq. injection Hreq as <-. vm_compute. discriminate.
  - apply (greedy Scenario.node_full []); [reflexivity|].
    intros node [<-|[]]. vm_compute. reflexivity.
Defined.

(** The cluster whose only node has every millicore and byte requested:
    the one candidate scores zero, and GreedyLB selects it and posts the
    binding, since 0 exceeds the initial best score -1. *)
Lemma greedy_binds_zero_score_node :
  let candidates := K8s.get_schedulable_nodes Scenario.cluster_full in
  let all_zero :=
    forall node, In node candidates ->
                 GreedyLB.calculate_node_score Scenario.cluster_full node == 0 in
  all_zero /\
  GreedyLB.select_best_node Scenario.cluster_full candidates = Some Scenario.node_full /\
  K8s.binding_target <$>
    snd (GreedyLB.schedule_pod Scenario.accepting Scenario.cluster_full Scenario.small_pod)
  = Some "node-full" /\
  ~ (all_zero ->
     GreedyLB.select_best_node Scenario.cluster_full candidates = None /\
     snd (GreedyLB.schedule_pod Scenario.accepting Scenario.cluster_full Scenario.small_pod)
     = None).
Proof.
  cbv zeta.
  assert (Z : forall node, In node (K8s.get_schedulable_nodes Scenario.cluster_full) ->
                GreedyLB.calculate_node_score Scenario.cluster_full node == 0).
  { intros node [<-|[]]. vm_compute. reflexivity. }
  split; [exact Z|]. split; [vm_compute; reflexivity|].
  split; [vm_compute; reflexivity|].
  intros H. destruct (H Z) as [H1 _]. vm_compute in H1. discriminate.
Qed.

(** ** C10: GreedyLB does not look at the pod *)

(** C10.  For every cluster state, GreedyLB assigns any two pods the same
    node: the target of the binding it posts does not depend on the pod,
    whose requests the greedy score never reads.  Consequently it can bind
    a pod to a node whose available CPU and memory are smaller than the
    pod's requests: in the scenario cluster the pod requesting 8 cores and
    16Gi is bound to the node that offers 4 cores and 8Gi. *)
Theorem greedy_choice_ignores_pod
    (accepts : K8s.Binding -> bool) (cl : K8s.Cluster) (pod1 pod2 : K8s.Pod) :
  K8s.binding_target <$> snd (GreedyLB.schedule_pod accepts cl pod1)
  = K8s.binding_target <$> snd (GreedyLB.schedule_pod accepts cl pod2) /\
  (exists (cluster : K8s.Cluster) (pod : K8s.Pod) (node : K8s.Node)
          (usage : RefineLB.Usage) (request : RefineLB.PodRequest),
      K8s.binding_target <$> snd (GreedyLB.schedule_pod accepts cluster pod)
      = Some (K8s.node_name node) /\
      In node (K8s.nodes cluster) /\
      RefineLB.get_node_resource_usage cluster node = Some usage /\
      Spec.pod_request pod = Returned request /\
      RefineLB.cpu_available usage < RefineLB.cpu request /\
      RefineLB.memory_available usage < RefineLB.memory request).
Proof.
  split.
  - unfold GreedyLB.schedule_pod.
    destruct (K8s.get_schedulable_nodes cl) as [|n0 ns]; [reflexivity|].
    destruct (GreedyLB.select_best_node cl (n0 :: ns)); reflexivity.
  - exists Scenario.cluster_abcd, Scenario.big_pod, Scenario.node_a.
    eexists _, _. split; [vm_compute; reflexivity|].
    split; [right; now left|].
    split; [vm_compute; reflexivity|].
    split; [vm_compute; reflexivity|].
    split; vm_compute; reflexivity.
Qed.

(** ** C3: RefineLB places only where the pod fits *)

Section Feasibility.
Import K8s.

(** What a usage record holds. *)
Lemma usage_fields (cl : Cluster) (node : Node) (u : RefineLB.Usage) :
  RefineLB.get_node_resource_usage cl node = Some u ->
  Resources.parse_cpu (get (allocatable node) "cpu" "0")
  = Returned (RefineLB.cpu_allocatable u) /\
  Resources.parse_memory (get (allocatable node) "memory" "0")
  = Returned (RefineLB.memory_allocatable u) /\
  pods_usage (list_pods_on_node cl (node_name node)) (0, 0)
  = Returned (RefineLB.cpu_used u, RefineLB.memory_used u) /\
  RefineLB.cpu_available u = RefineLB.cpu_allocatable u - RefineLB.cpu_used u /\
  RefineLB.memory_available u = RefineLB.memory_allocatable u - RefineLB.memory_used u.
Proof.
  unfold RefineLB.get_node_resource_usage.
  destruct (Resources.parse_cpu _) as [ca|]; [|discriminate].
  destruct (Resources.parse_memory _) as [ma|]; [|discriminate].
  cbn [bind_outcome].
  destruct (pods_usage _ _) as [[cu mu]|]; [|discriminate].
  cbn. intros H. injection H as <-. cbn. repeat split.
Qed.

Lemma cannot_schedule_false (u : RefineLB.Usage) (req : RefineLB.PodRequest) :
  RefineLB.cannot_schedule u req = false
  <-> RefineLB.cpu req <= RefineLB.cpu_available u
      /\ RefineLB.memory req <= RefineLB.memory_available u.
Proof.
  unfold RefineLB.cannot_schedule. rewrite orb_false_iff.
  now rewrite !lt_false.
Qed.

Lemma cannot_schedule_true (u : RefineLB.Usage) (req : RefineLB.PodRequest) :
  RefineLB.cannot_schedule u req = true
  <-> RefineLB.cpu_available u < RefineLB.cpu req
      \/ RefineLB.memory_available u < RefineLB.memory req.
Proof.
  unfold RefineLB.cannot_schedule. rewrite orb_true_iff.
  now rewrite !lt_true.
Qed.

(** A node that cannot take the pod scores exactly 0. *)
Lemma infeasible_scores_zero (cl : Cluster) (node : Node) (u : RefineLB.Usage)
    (req : RefineLB.PodRequest) (all : list RefineLB.Usage) :
  RefineLB.get_node_resource_usage cl node = Some u ->
  RefineLB.cannot_schedule u req = true ->
  RefineLB.calculate_refined_score cl node req all = 0.
Proof.
  intros Hu Hc. unfold RefineLB.calculate_refined_score. now rewrite Hu, Hc.
Qed.

(** A positive score comes from a usage that passed the feasibility test. *)
Lemma positive_score_feasible (cl : Cluster) (node : Node)
    (req : RefineLB.PodRequest) (all : list RefineLB.Usage) :
  0 < RefineLB.calculate_refined_score cl node req all ->
  exists u, RefineLB.get_node_resource_usage cl node = Some u
            /\ RefineLB.cannot_schedule u req = false.
Proof.
  unfold RefineLB.calculate_refined_score.
  destruct (RefineLB.get_node_resource_usage cl node) as [u|];
    [|cbn [except_return]; intros H; lra].
  destruct (RefineLB.cannot_schedule u req) eqn:E;
    [cbn [except_return]; intros H; lra|].
  intros _. exists u. split; [reflexivity | exact E].
Qed.

End Feasibility.

(** C3.  For every pod that RefineLB selects a node for, the node's usage
    was read, its available CPU (allocatable minus the CPU requests of the
    non-terminal pods on it) is at least the pod's CPU request and its
    available memory at least the pod's memory request, so that what remains
    after placement is not negative.  A candidate that fails this test
    scores 0 and is never selected. *)
Theorem refinelb_selects_feasible
    (cl : K8s.Cluster) (nodes : list K8s.Node) (pod : K8s.Pod) :
  (forall node,
      RefineLB.select_best_node cl nodes pod = Returned (Some node) ->
      exists req u,
        RefineLB.get_pod_resource_requests pod = Returned req /\
        RefineLB.get_node_resource_usage cl node = Some u /\
        K8s.pods_usage (K8s.list_pods_on_node cl (K8s.node_name node)) (0, 0)
        = Returned (RefineLB.cpu_used u, RefineLB.memory_used u) /\
        RefineLB.cpu_available u = RefineLB.cpu_allocatable u - RefineLB.cpu_used u /\
        RefineLB.memory_available u
        = RefineLB.memory_allocatable u - RefineLB.memory_used u /\
        RefineLB.cpu req <= RefineLB.cpu_available u /\
        RefineLB.memory req <= RefineLB.memory_available u /\
        0 <= RefineLB.cpu_available u - RefineLB.cpu req /\
        0 <= RefineLB.memory_available u - RefineLB.memory req) /\
  (forall node req u,
      RefineLB.get_pod_resource_requests pod = Returned req ->
      RefineLB.get_node_resource_usage cl node = Some u ->
      RefineLB.cpu_available u < RefineLB.cpu req
      \/ RefineLB.memory_available u < RefineLB.memory req ->
      (forall all, RefineLB.calculate_refined_score cl node req all = 0) /\
      RefineLB.select_best_node cl nodes pod <> Returned (Some node)).
Proof.
  split.
  - intros node Hsel.
    apply refine_select_scored in Hsel as (req & Hreq & _ & Hpos).
    apply positive_score_feasible in Hpos as (u & Hu & Hfit).
    apply cannot_schedule_false in Hfit as [Hcpu Hmem].
    destruct (usage_fields cl node u Hu) as (_ & _ & Hused & Ecpu & Emem).
    exists req, u. repeat split; try assumption; lra.
  - intros node req u Hreq Hu Hlack.
    apply cannot_schedule_true in Hlack.
    split; [intros all; now apply (infeasible_scores_zero cl node u)|].
    intros Hsel. apply refine_select_scored in Hsel as (req' & Hreq' & _ & Hpos).
    rewrite Hreq in Hreq'. injection Hreq' as <-.
    rewrite (infeasible_scores_zero cl node u req _ Hu Hlack) in Hpos. lra.
Qed.

Lemma refinelb_selects_feasible_witness :
  exists req u,
    RefineLB.get_pod_resource_requests Scenario.small_pod = Returned req /\
    RefineLB.get_node_resource_usage Scenario.cluster_abcd Scenario.node_a = Some u /\
    RefineLB.cpu req <= RefineLB.cpu_available u /\
    RefineLB.memory req <= RefineLB.memory_available u.
Proof.
  destruct (refinelb_selects_feasible Scenario.cluster_abcd
              (K8s.get_schedulable_nodes Scenario.cluster_abcd) Scenario.small_pod)
    as (sel & _).
  destruct (sel Scenario.node_a) as (req & u & Hreq & Hu & _ & _ & _ & Hc & Hm & _).
  - vm_compute. reflexivity.
  - exists req, u. repeat split; assumption.
Defined.

(** ** C4: the composition of the RefineLB score *)

Section ScoreFormula.
Import K8s.

Lemma average_nonempty (field : RefineLB.Usage -> Q) (all : list RefineLB.Usage) :
  all <> [] -> RefineLB.average field all = Returned (Spec.avg_util field all).
Proof.
  intros H. destruct all as [|u all]; [contradiction|].
  unfold RefineLB.average, Spec.avg_util, Spec.mean, Py.len.
  now rewrite length_map.
Qed.

(** The score of a usage that passed the test is the sum of the four
    factors, with the mean utilisations of the candidates. *)
Lemma feasible_score (cl : Cluster) (node : Node) (u : RefineLB.Usage)
    (req : RefineLB.PodRequest) (all : list RefineLB.Usage) :
  RefineLB.get_node_resource_usage cl node = Some u ->
  all <> [] ->
  RefineLB.cannot_schedule u req = false ->
  RefineLB.calculate_refined_score cl node req all
  = RefineLB.resources_score u req
    + RefineLB.balance_score u req
        (Spec.avg_util RefineLB.cpu_utilization all)
        (Spec.avg_util RefineLB.memory_utilization all)
    + RefineLB.pod_density u
    + RefineLB.target_score u req.
Proof.
  intros Hu Hall Hfit. unfold RefineLB.calculate_refined_score.
  rewrite Hu, Hfit, !average_nonempty by exact Hall. reflexivity.
Qed.

End ScoreFormula.

(** C4, as the code has it.  For every feasible candidate, RefineLB's score
    is the sum of (0.5*cpu_after + 0.5*mem_after)*40, where
    cpu_after = (available CPU - requested CPU) / max(allocatable CPU, 1) and
    mem_after likewise; (0.5*cpu_balance + 0.5*mem_balance)*0.3, where
    cpu_balance = 100 - |new_cpu_util - avg_cpu_util| with the mean over all
    candidates, unclamped; (1 - pod_count/110)*20; and
    (0.5*cpu_target + 0.5*mem_target)*0.1, where
    cpu_target = 100 - |new_cpu_util - 65|.  When the allocatable CPU and
    memory are at least 1, the divisor is the allocatable amount itself. *)
Theorem refined_score_composition
    (cl : K8s.Cluster) (node : K8s.Node) (u : RefineLB.Usage)
    (req : RefineLB.PodRequest) (all : list RefineLB.Usage) :
  RefineLB.get_node_resource_usage cl node = Some u ->
  all <> [] ->
  RefineLB.cpu req <= RefineLB.cpu_available u ->
  RefineLB.memory req <= RefineLB.memory_available u ->
  let avg_cpu_util := Spec.avg_util RefineLB.cpu_utilization all in
  let avg_mem_util := Spec.avg_util RefineLB.memory_utilization all in
  RefineLB.calculate_refined_score cl node req all
  == Spec.refined_score_guarded u req avg_cpu_util avg_mem_util /\
  (1 <= RefineLB.cpu_allocatable u -> 1 <= RefineLB.memory_allocatable u ->
   RefineLB.calculate_refined_score cl node req all
   == Spec.refined_score u req avg_cpu_util avg_mem_util).
Proof.
  intros Hu Hall Hcpu Hmem. cbv zeta.
  rewrite (feasible_score cl node u req all Hu Hall)
    by (apply cannot_schedule_false; now split).
  unfold Spec.refined_score_guarded, Spec.refined_score, Spec.refined_score_over,
    RefineLB.resources_score, RefineLB.balance_score, RefineLB.pod_density,
    RefineLB.target_score, Py.abs.
  split.
  - rewrite !max_1_guard. unfold Qdiv. ring.
  - intros H1 H2. rewrite (max_1_of_ge _ H1), (max_1_of_ge _ H2). unfold Qdiv. ring.
Qed.

Lemma refined_score_composition_witness :
  exists u req,
    RefineLB.get_node_resource_usage Scenario.cluster_abcd Scenario.node_a = Some u /\
    RefineLB.get_pod_resource_requests Scenario.small_pod = Returned req /\
    let all := RefineLB.collect_usage Scenario.cluster_abcd
                 (K8s.get_schedulable_nodes Scenario.cluster_abcd) in
    RefineLB.calculate_refined_score Scenario.cluster_abcd Scenario.node_a req all
    == Spec.refined_score u req
         (Spec.avg_util RefineLB.cpu_utilization all)
         (Spec.avg_util RefineLB.memory_utilization all).
Proof.
  destruct (RefineLB.get_node_resource_usage Scenario.cluster_abcd Scenario.node_a)
    as [u|] eqn:Hu; [|vm_compute in Hu; discriminate].
  destruct (RefineLB.get_pod_resource_requests Scenario.small_pod)
    as [req|] eqn:Hreq; [|vm_compute in Hreq; discriminate].
  exists u, req. split; [reflexivity|]. split; [reflexivity|]. cbv zeta.
  assert (Eu : Some u = RefineLB.get_node_resource_usage
                          Scenario.cluster_abcd Scenario.node_a) by (now rewrite Hu).
  assert (Er : Returned req = RefineLB.get_pod_resource_requests Scenario.small_pod)
    by (now rewrite Hreq).
  vm_compute in Eu, Er. injection Eu as ->. injection Er as ->.
  apply (refined_score_composition Scenario.cluster_abcd Scenario.node_a _ _ _ Hu).
  - vm_compute. discriminate.
  - vm_compute. discriminate.
  - vm_compute. discriminate.
  - vm_compute. discriminate.
  - vm_compute. discriminate.
Defined.

(** A node with half a millicore of allocatable CPU and a pod requesting a
    tenth of a millicore: the candidate is feasible, the code divides what
    remains by max(0.5, 1) = 1, the specification's wording by 0.5. *)
Lemma refined_score_tiny_node :
  exists u req,
    RefineLB.get_node_resource_usage Scenario.cluster_tiny Scenario.node_tiny = Some u /\
    RefineLB.get_pod_resource_requests Scenario.tiny_pod = Returned req /\
    RefineLB.cpu req <= RefineLB.cpu_available u /\
    RefineLB.memory req <= RefineLB.memory_available u /\
    let all := RefineLB.collect_usage Scenario.cluster_tiny
                 (K8s.get_schedulable_nodes Scenario.cluster_tiny) in
    ~ RefineLB.calculate_refined_score Scenario.cluster_tiny Scenario.node_tiny req all
      == Spec.refined_score u req
           (Spec.avg_util RefineLB.cpu_utilization all)
           (Spec.avg_util RefineLB.memory_utilization all).
Proof.
  eexists _, _. split; [vm_compute; reflexivity|].
  split; [vm_compute; reflexivity|].
  split; [vm_compute; discriminate|]. split; [vm_compute; discriminate|].
  cbv zeta. intros H. vm_compute in H. discriminate.
Qed.

(** * Further properties of the code *)

(** ** The parsers on every suffixed string *)

Section UnitSuffixes.

(** A string whose last character is [a] does not end in the one-character
    suffix [b], nor in a two-character suffix whose last character is [c],
    when [a] differs from them. *)
Lemma endswith_last_1 (a b : ascii) (s : string) :
  a <> b ->
  Py.endswith (s +:+ String a EmptyString) (String b EmptyString) = false.
Proof.
  intros Hab. induction s as [|d s IH].
  - simpl. now destruct (Ascii.eqb_spec a b).
  - change (String d s +:+ String a EmptyString)
      with (String d (s +:+ String a EmptyString)).
    cbn [Py.endswith]. rewrite IH.
    destruct (String.eqb_spec (String d (s +:+ String a EmptyString))
                (String b EmptyString)) as [E|_]; [|reflexivity].
    exfalso. injection E as _ E. destruct s; discriminate.
Qed.

Lemma endswith_last_2 (a b c : ascii) (s : string) :
  a <> c ->
  Py.endswith (s +:+ String a EmptyString) (String b (String c EmptyString)) = false.
Proof.
  intros Hac. induction s as [|d s IH].
  - simpl. destruct (Ascii.eqb a b); reflexivity.
  - change (String d s +:+ String a EmptyString)
      with (String d (s +:+ String a EmptyString)).
    cbn [Py.endswith]. rewrite IH.
    destruct (String.eqb_spec (String d (s +:+ String a EmptyString))
                (String b (String c EmptyString))) as [E|_]; [|reflexivity].
    exfalso. injection E as _ E. destruct s as [|e s].
    + injection E as E. contradiction.
    + injection E as _ E. destruct s; discriminate.
Qed.

Lemma parse_cpu_m (s : string) :
  Resources.parse_cpu (s +:+ "m") = Py.float s.
Proof.
  unfold Resources.parse_cpu. rewrite app_nonempty by discriminate.
  rewrite endswith_app.
  now rewrite (drop_last_app s "m" : Py.drop_last 1 (s +:+ "m") = s).
Qed.

Lemma parse_cpu_n (s : string) :
  Resources.parse_cpu (s +:+ "n") = let* x := Py.float s in Returned (x / 1000000).
Proof.
  unfold Resources.parse_cpu. rewrite app_nonempty by discriminate.
  rewrite (endswith_last_1 "n" "m") by discriminate.
  rewrite endswith_app.
  now rewrite (drop_last_app s "n" : Py.drop_last 1 (s +:+ "n") = s).
Qed.

Lemma parse_memory_decimal_units (a : ascii) (s : string) :
  a <> "i"%char ->
  Resources.parse_memory (s +:+ String a EmptyString)
  = Resources.parse_memory_units
      [("K", 1000); ("M", 1000 ^ 2); ("G", 1000 ^ 3); ("T", 1000 ^ 4)]
      (s +:+ String a EmptyString).
Proof.
  intros Ha. unfold Resources.parse_memory. rewrite app_nonempty by discriminate.
  unfold Resources.units.
  cbn [Resources.parse_memory_units].
  now rewrite !(endswith_last_2 a _ "i") by exact Ha.
Qed.

End UnitSuffixes.

(** X1.  For every string [s]: [parse_cpu] reads [s] followed by "m" as
    [float(s)] millicores and [s] followed by "n" as [float(s)] / 1e6;
    [parse_memory] reads [s] followed by "K", "M", "G" or "T" as [float(s)]
    times 1000, 1000^2, 1000^3 or 1000^4.  Each raises exactly when
    [float(s)] does; in particular a bare unit raises. *)
Theorem parsers_on_suffixed_strings (s : string) :
  Resources.parse_cpu (s +:+ "m") = Py.float s /\
  Resources.parse_cpu (s +:+ "n") = (let* x := Py.float s in Returned (x / 1000000)) /\
  Resources.parse_memory (s +:+ "K") = (let* x := Py.float s in Returned (x * 1000)) /\
  Resources.parse_memory (s +:+ "M") = (let* x := Py.float s in Returned (x * 1000 ^ 2)) /\
  Resources.parse_memory (s +:+ "G") = (let* x := Py.float s in Returned (x * 1000 ^ 3)) /\
  Resources.parse_memory (s +:+ "T") = (let* x := Py.float s in Returned (x * 1000 ^ 4)) /\
  Resources.parse_cpu "m" = Raised /\ Resources.parse_cpu "n" = Raised /\
  Resources.parse_memory "Mi" = Raised /\ Resources.parse_memory "G" = Raised.
Proof.
  split; [apply parse_cpu_m|]. split; [apply parse_cpu_n|].
  split; [|split; [|split; [|split]]].
  - rewrite (parse_memory_decimal_units "K") by discriminate.
    cbn [Resources.parse_memory_units].
    rewrite endswith_app. now rewrite (drop_last_app s "K").
  - rewrite (parse_memory_decimal_units "M") by discriminate.
    cbn [Resources.parse_memory_units].
    rewrite (endswith_last_1 "M" "K") by discriminate.
    rewrite endswith_app. now rewrite (drop_last_app s "M").
  - rewrite (parse_memory_decimal_units "G") by discriminate.
    cbn [Resources.parse_memory_units].
    rewrite (endswith_last_1 "G" "K"), (endswith_last_1 "G" "M") by discriminate.
    rewrite endswith_app. now rewrite (drop_last_app s "G").
  - rewrite (parse_memory_decimal_units "T") by discriminate.
    cbn [Resources.parse_memory_units].
    rewrite (endswith_last_1 "T" "K"), (endswith_last_1 "T" "M"),
      (endswith_last_1 "T" "G") by discriminate.
    rewrite endswith_app. now rewrite (drop_last_app s "T").
  - repeat split; reflexivity.
Qed.

(** ** The sample window and the monitoring iteration *)

Section SampleWindow.
Import Detector.

Lemma deque_append_length (maxlen : nat) (d : list N) (x : N) :
  length (deque_append maxlen d x) = Nat.min (length d + 1) maxlen.
Proof.
  unfold deque_append. rewrite length_drop, length_app. simpl. lia.
Qed.

Lemma deque_append_room (maxlen : nat) (d : list N) (x : N) :
  (length d < maxlen)%nat -> deque_append maxlen d x = d ++ [x].
Proof.
  intros H. unfold deque_append. rewrite length_app. simpl.
  replace (length d + 1 - maxlen)%nat with 0%nat by lia. reflexivity.
Qed.

Lemma deque_append_full (maxlen : nat) (d : list N) (x : N) :
  length d = maxlen -> (0 < maxlen)%nat -> deque_append maxlen d x = tl d ++ [x].
Proof.
  intros H Hpos. unfold deque_append. rewrite length_app. simpl.
  replace (length d + 1 - maxlen)%nat with 1%nat by lia.
  destruct d as [|y d]; [simpl in H; lia | reflexivity].
Qed.

End SampleWindow.

(** X2.  Recording a sample leaves a window of min(len + 1, history_window)
    samples: while the window has room the sample is appended; at capacity
    the oldest sample leaves and the others keep their order; the
    configuration and the cached scheduler are untouched. *)
Theorem sample_window_bounded (self : Detector.PatternDetector) (x : N) :
  let before := Detector.pod_count_history self in
  let after := Detector.pod_count_history (Detector.record_sample self x) in
  length after = Nat.min (length before + 1) (Detector.history_window self) /\
  ((length before < Detector.history_window self)%nat -> after = before ++ [x]) /\
  (length before = Detector.history_window self ->
   (0 < Detector.history_window self)%nat -> after = tl before ++ [x]) /\
  Detector.history_window (Detector.record_sample self x) = Detector.history_window self /\
  Detector.current_scheduler (Detector.record_sample self x)
  = Detector.current_scheduler self.
Proof.
  cbv zeta. cbn [Detector.record_sample Detector.pod_count_history
                 Detector.history_window Detector.current_scheduler].
  split; [apply deque_append_length|].
  split; [apply deque_append_room|].
  split; [apply deque_append_full|]. split; reflexivity.
Qed.

Lemma sample_window_bounded_witness :
  Detector.pod_count_history (Detector.record_sample (Detector.holding [1; 2]%N) 3%N)
  = [1; 2; 3]%N /\
  Detector.pod_count_history
    (Detector.record_sample (Detector.holding [1; 2; 3; 4; 5; 6]%N) 7%N)
  = [2; 3; 4; 5; 6; 7]%N.
Proof.
  split.
  - destruct (sample_window_bounded (Detector.holding [1; 2]%N) 3%N) as (_ & c & _).
    apply c. simpl. lia.
  - destruct (sample_window_bounded (Detector.holding [1; 2; 3; 4; 5; 6]%N) 7%N)
      as (_ & _ & c & _).
    apply c; simpl; [reflexivity | lia].
Defined.

(** X3.  An iteration of the monitoring loop reaches the decision step
    exactly when the detector keeps a window of at least 2 samples and
    already holds a sample; otherwise it only records the sample.  A
    detector built with [history_window] below 2 never decides. *)
Theorem monitor_iteration_decides
    (api : Detector.Api) (cl : K8s.Cluster) (self : Detector.PatternDetector) :
  let sampled := Detector.record_sample self (Detector.get_active_pod_count api cl) in
  ((2 <= Detector.history_window self)%nat /\ Detector.pod_count_history self <> [] ->
   Detector.monitor_iteration api cl self
   = inl (Detector.decision_step api cl sampled)) /\
  (~ ((2 <= Detector.history_window self)%nat /\ Detector.pod_count_history self <> []) ->
   Detector.monitor_iteration api cl self = inr sampled).
Proof.
  cbv zeta. unfold Detector.monitor_iteration.
  pose proof (deque_append_length (Detector.history_window self)
                (Detector.pod_count_history self)
                (Detector.get_active_pod_count api cl)) as L.
  cbn [Detector.record_sample Detector.pod_count_history].
  destruct (Nat.ltb_spec
              (length (Detector.deque_append (Detector.history_window self)
                         (Detector.pod_count_history self)
                         (Detector.get_active_pod_count api cl))) 2) as [H|H];
    rewrite L in H; split; intros C; try reflexivity; exfalso.
  - destruct C as [C1 C2].
    assert (0 < length (Detector.pod_count_history self))%nat
      by (destruct (Detector.pod_count_history self); [congruence | cbn [length]; lia]).
    lia.
  - apply C. split; [lia|]. intros E. rewrite E in H. cbn [length] in H. lia.
Qed.

Lemma monitor_iteration_decides_witness :
  (exists d, Detector.monitor_iteration
               {| Detector.list_pods_ok := true; Detector.list_deployments_ok := true;
                  Detector.patch_ok := fun _ => true |}
               Scenario.cluster_full (Detector.holding [3]%N) = inl d) /\
  (exists s, Detector.monitor_iteration
               {| Detector.list_pods_ok := true; Detector.list_deployments_ok := true;
                  Detector.patch_ok := fun _ => true |}
               Scenario.cluster_full Detector.default_detector = inr s).
Proof.
  split.
  - eexists. eapply monitor_iteration_decides. split; [simpl; lia | discriminate].
  - eexists. eapply monitor_iteration_decides. intros [_ C]. now apply C.
Defined.

(** X4.  The detector counts a pod exactly when its namespace is none of
    kube-system, kube-public, kube-node-lease and its phase is Running or
    Pending: one more such pod raises the count by one, any other pod
    leaves it unchanged; the count never exceeds the number of pods, and it
    is 0 when the listing fails. *)
Theorem active_pod_count_counts
    (api : Detector.Api) (cl : K8s.Cluster) (pod : K8s.Pod) :
  Detector.get_active_pod_count api (Derived.with_pod cl pod)
  = (Detector.get_active_pod_count api cl
     + (if (Detector.list_pods_ok api && Derived.active pod)%bool then 1 else 0))%N /\
  (Detector.get_active_pod_count api cl <= N.of_nat (length (K8s.pods cl)))%N /\
  (Detector.list_pods_ok api = false -> Detector.get_active_pod_count api cl = 0%N).
Proof.
  unfold Detector.get_active_pod_count. split; [|split].
  - destruct (Detector.list_pods_ok api); [|reflexivity].
    cbn [Derived.with_pod K8s.pods andb]. rewrite List.filter_app, length_app.
    cbn [List.filter]. fold (Derived.active pod).
    destruct (Derived.active pod); simpl; lia.
  - destruct (Detector.list_pods_ok api); [|lia].
    pose proof (List.filter_length_le
                  (fun pod0 => (negb (Detector.in_strings (K8s.pod_namespace pod0)
                                        Detector.system_namespaces)
                                && Detector.in_strings (K8s.phase pod0)
                                     ["Running"; "Pending"])%bool) (K8s.pods cl)).
    lia.
  - intros ->. reflexivity.
Qed.

Lemma active_pod_count_counts_witness :
  Detector.get_active_pod_count
    {| Detector.list_pods_ok := false; Detector.list_deployments_ok := true;
       Detector.patch_ok := fun _ => true |} Scenario.cluster_full = 0%N.
Proof.
  apply (active_pod_count_counts
           {| Detector.list_pods_ok := false; Detector.list_deployments_ok := true;
              Detector.patch_ok := fun _ => true |} Scenario.cluster_full Scenario.hog).
  reflexivity.
Defined.

(** ** Bounds and sign of the growth rate *)

Section RateBounds.
Import Detector.

Lemma len_cons {A} (x : A) (l : list A) : Py.len (x :: l) == Py.len l + 1.
Proof.
  unfold Py.len. cbn [length]. rewrite Nat2Z.inj_succ, <- Z.add_1_r.
  now rewrite inject_Z_plus.
Qed.

Lemma len_nonneg {A} (l : list A) : 0 <= Py.len l.
Proof.
  unfold Py.len. change 0 with (inject_Z 0). rewrite <- Zle_Qle. lia.
Qed.

Lemma fold_sum_lower (lo : Q) (l : list Q) (a : Q) :
  Forall (fun x => lo <= x) l -> a + lo * Py.len l <= fold_left Qplus l a.
Proof.
  intros H. revert a. induction H as [|x l Hx _ IH]; intros a.
  - change (Py.len (@nil Q)) with 0. cbn [fold_left]. lra.
  - cbn [fold_left]. specialize (IH (a + x)). rewrite len_cons. lra.
Qed.

Lemma fold_sum_upper (hi : Q) (l : list Q) (a : Q) :
  Forall (fun x => x <= hi) l -> fold_left Qplus l a <= a + hi * Py.len l.
Proof.
  intros H. revert a. induction H as [|x l Hx _ IH]; intros a.
  - change (Py.len (@nil Q)) with 0. cbn [fold_left]. lra.
  - cbn [fold_left]. specialize (IH (a + x)). rewrite len_cons. lra.
Qed.

Lemma len_pos {A} (x : A) (l : list A) : 0 < Py.len (x :: l).
Proof. rewrite len_cons. pose proof (len_nonneg l). lra. Qed.

(** The mean of a non-empty list lies between any bounds of its elements. *)
Lemma mean_lower (lo : Q) (x : Q) (l : list Q) :
  Forall (fun y => lo <= y) (x :: l) -> lo <= Py.sum (x :: l) / Py.len (x :: l).
Proof.
  intros H. apply Qle_shift_div_l; [apply len_pos|].
  pose proof (fold_sum_lower lo (x :: l) 0 H). unfold Py.sum. lra.
Qed.

Lemma mean_upper (hi : Q) (x : Q) (l : list Q) :
  Forall (fun y => y <= hi) (x :: l) -> Py.sum (x :: l) / Py.len (x :: l) <= hi.
Proof.
  intros H. apply Qle_shift_div_r; [apply len_pos|].
  pose proof (fold_sum_upper hi (x :: l) 0 H). unfold Py.sum. lra.
Qed.

Lemma num_le (a b : N) : (a <= b)%N -> num a <= num b.
Proof. intros H. unfold num. rewrite <- Zle_Qle. lia. Qed.

Lemma num_pos (a : N) : a <> 0%N -> 0 < num a.
Proof.
  intros H. unfold num. change 0 with (inject_Z 0). rewrite <- Zlt_Qlt. lia.
Qed.

Lemma num_nonneg (a : N) : 0 <= num a.
Proof. unfold num. change 0 with (inject_Z 0). rewrite <- Zle_Qle. lia. Qed.

(** The percentage change from [p] to [c], for [p] not zero. *)
Lemma change_lower (p c : N) : p <> 0%N -> -100 <= ((num c - num p) / num p) * 100.
Proof.
  intros Hp. pose proof (num_pos p Hp). pose proof (num_nonneg c).
  assert (-1 <= (num c - num p) / num p) by (apply Qle_shift_div_l; lra). lra.
Qed.

Lemma change_nonneg (p c : N) :
  p <> 0%N -> (p <= c)%N -> 0 <= ((num c - num p) / num p) * 100.
Proof.
  intros Hp Hle. pose proof (num_pos p Hp). pose proof (num_le p c Hle).
  assert (0 <= (num c - num p) / num p) by (apply Qle_shift_div_l; lra). lra.
Qed.

Lemma change_nonpos (p c : N) :
  p <> 0%N -> (c <= p)%N -> ((num c - num p) / num p) * 100 <= 0.
Proof.
  intros Hp Hle. pose proof (num_pos p Hp). pose proof (num_le c p Hle).
  assert ((num c - num p) / num p <= 0) by (apply Qle_shift_div_r; lra). lra.
Qed.

(** A bound that holds for the change of every step with a non-zero
    predecessor holds for every rate the loop collects. *)
Lemma step_rates_forall (P : Q -> Prop) (Pstep : N * N -> Prop) (w : list N) :
  (forall p c, p <> 0%N -> Pstep (p, c) -> P (((num c - num p) / num p) * 100)) ->
  Forall Pstep (Spec.steps w) -> Forall P (step_rates w).
Proof.
  intros HP Hw. rewrite step_rates_filter.
  apply List.Forall_map. rewrite List.Forall_forall in *.
  intros [p c] Hin. apply List.filter_In in Hin as [Hin Hnz].
  apply HP; [|now apply Hw].
  unfold Spec.nonzero_predecessor in Hnz. cbn [fst] in Hnz.
  now destruct (N.eqb_spec p 0).
Qed.

Lemma steps_cons (a b : N) (w : list N) :
  Spec.steps (a :: b :: w) = (a, b) :: Spec.steps (b :: w).
Proof. reflexivity. Qed.

Lemma nondecreasing_last (a d : N) (w : list N) :
  Derived.nondecreasing (a :: w) -> (a <= List.last (a :: w) d)%N.
Proof.
  revert a. induction w as [|b w IH]; intros a H; [simpl; lia|].
  unfold Derived.nondecreasing in H. rewrite steps_cons in H.
  apply List.Forall_cons_iff in H as [Hab H]. cbn [fst snd] in Hab.
  specialize (IH b H). change (List.last (a :: b :: w) d) with (List.last (b :: w) d).
  lia.
Qed.

Lemma nonincreasing_last (a d : N) (w : list N) :
  Derived.nonincreasing (a :: w) -> (List.last (a :: w) d <= a)%N.
Proof.
  revert a. induction w as [|b w IH]; intros a H; [simpl; lia|].
  unfold Derived.nonincreasing in H. rewrite steps_cons in H.
  apply List.Forall_cons_iff in H as [Hab H]. cbn [fst snd] in Hab.
  specialize (IH b H). change (List.last (a :: b :: w) d) with (List.last (b :: w) d).
  lia.
Qed.

(** The rate has every property that 0 has, that 100 has on a start-up
    window, that the simple change has, and that every mean of collected
    step rates has. *)
Lemma growth_rate_elim (P : Q -> Prop) (self : PatternDetector) :
  let w := pod_count_history self in
  P 0 ->
  (hd 0%N w = 0%N -> (0 < List.last w 0%N)%N -> P 100) ->
  (hd 0%N w <> 0%N ->
   P (((num (List.last w 0%N) - num (hd 0%N w)) / num (hd 0%N w)) * 100)) ->
  (forall x xs, step_rates w = x :: xs -> P (Py.sum (x :: xs) / Py.len (x :: xs))) ->
  P (fst (calculate_growth_rate self)).
Proof.
  cbv zeta. intros P0 P100 Psimple Pmean. unfold calculate_growth_rate.
  destruct (length (pod_count_history self) <? 2)%nat; [exact P0|].
  destruct (N.eqb_spec (hd 0%N (pod_count_history self)) 0) as [E|E].
  - destruct (N.ltb_spec 0 (List.last (pod_count_history self) 0%N));
      cbn [fst]; [now apply P100 | exact P0].
  - destruct (3 <=? length (pod_count_history self))%nat; [|now apply Psimple].
    destruct (step_rates (pod_count_history self)) as [|x xs] eqn:Er;
      cbn [fst]; [now apply Psimple | now apply Pmean].
Qed.

End RateBounds.

(** X5.  The growth rate is never below -100: a window cannot shrink by
    more than all of its pods, whatever its samples. *)
Theorem growth_rate_at_least_minus_100 (self : Detector.PatternDetector) :
  -100 <= fst (Detector.calculate_growth_rate self).
Proof.
  apply (growth_rate_elim (fun r => -100 <= r)); try lra.
  - intros H. now apply change_lower.
  - intros x xs E. apply mean_lower. rewrite <- E.
    apply (step_rates_forall _ (fun _ => True)).
    + intros p c Hp _. now apply change_lower.
    + now apply List.Forall_forall.
Qed.

Section RateSign.
Import Detector.

Lemma rate_nonneg_of_nondecreasing (self : PatternDetector) :
  Derived.nondecreasing (pod_count_history self) ->
  0 <= fst (calculate_growth_rate self).
Proof.
  intros Hw. apply (growth_rate_elim (fun r => 0 <= r)); try lra.
  - intros Hne. apply change_nonneg; [exact Hne|].
    destruct (pod_count_history self) as [|a w]; [simpl; lia|].
    now apply nondecreasing_last.
  - intros x xs E. apply mean_lower. rewrite <- E.
    apply (step_rates_forall _ (fun step => (fst step <= snd step)%N)); [|exact Hw].
    intros p c Hp Hle. now apply change_nonneg.
Qed.

Lemma rate_nonpos_of_nonincreasing (self : PatternDetector) :
  Derived.nonincreasing (pod_count_history self) ->
  fst (calculate_growth_rate self) <= 0.
Proof.
  intros Hw. apply (growth_rate_elim (fun r => r <= 0)); try lra.
  - intros E Hpos. exfalso.
    destruct (pod_count_history self) as [|a w]; [simpl in Hpos; lia|].
    pose proof (nonincreasing_last a 0%N w Hw) as L. cbn [hd] in E. lia.
  - intros Hne. apply change_nonpos; [exact Hne|].
    destruct (pod_count_history self) as [|a w]; [simpl; lia|].
    now apply nonincreasing_last.
  - intros x xs E. apply mean_upper. rewrite <- E.
    apply (step_rates_forall _ (fun step => (snd step <= fst step)%N)); [|exact Hw].
    intros p c Hp Hle. now apply change_nonpos.
Qed.

End RateSign.

(** X6.  A window whose samples never decrease has a growth rate of at
    least 0, one whose samples never increase a growth rate of at most 0;
    a window of equal samples therefore has rate 0. *)
Theorem growth_rate_sign (self : Detector.PatternDetector) :
  let w := Detector.pod_count_history self in
  let rate := fst (Detector.calculate_growth_rate self) in
  (Derived.nondecreasing w -> 0 <= rate) /\
  (Derived.nonincreasing w -> rate <= 0) /\
  (Derived.nondecreasing w -> Derived.nonincreasing w -> rate == 0).
Proof.
  cbv zeta.
  split; [apply rate_nonneg_of_nondecreasing|].
  split; [apply rate_nonpos_of_nonincreasing|].
  intros H1 H2. apply Qle_antisym;
    [now apply rate_nonpos_of_nonincreasing | now apply rate_nonneg_of_nondecreasing].
Qed.

Lemma growth_rate_sign_witness :
  0 <= fst (Detector.calculate_growth_rate (Detector.holding [1; 1; 2; 5]%N)) /\
  fst (Detector.calculate_growth_rate (Detector.holding [7; 7; 7]%N)) == 0.
Proof.
  split.
  - apply (growth_rate_sign (Detector.holding [1; 1; 2; 5]%N)).
    repeat constructor; simpl; lia.
  - apply (growth_rate_sign (Detector.holding [7; 7; 7]%N));
      repeat constructor; simpl; lia.
Defined.

(** ** Routing *)

Section Routing.
Import Detector.

Lemma decision_step_optimal (api : Api) (cl : K8s.Cluster) (self : PatternDetector) :
  optimal_scheduler (decision_step api cl self)
  = determine_optimal_scheduler (detect_pattern self (fst (calculate_growth_rate self))).
Proof.
  unfold decision_step. destruct (calculate_growth_rate self) as [rate trend].
  cbn [fst]. now destruct (negb _).
Qed.

Lemma detect_pattern_opp (self : PatternDetector) (r : Q) :
  detect_pattern self (- r) = detect_pattern self r.
Proof.
  assert (E : forall t, Py.lt (Qabs (- r)) t = Py.lt (Qabs r) t)
    by (intros t; unfold Py.lt; now rewrite Qabs_opp).
  unfold detect_pattern, Py.abs. now rewrite !E.
Qed.

Lemma routed_to_greedy (self : PatternDetector) (r : Q) :
  Qabs r < stable_threshold self \/ Qabs r < linear_threshold self ->
  determine_optimal_scheduler (detect_pattern self r) = SchedulerType.GREEDY_LB.
Proof.
  intros H. unfold detect_pattern, Py.abs.
  destruct (Py.lt (Qabs r) (stable_threshold self)) eqn:E1; [reflexivity|].
  destruct (Py.lt (Qabs r) (linear_threshold self)) eqn:E2; [reflexivity|].
  apply lt_false in E1, E2. destruct H; lra.
Qed.

Lemma routed_to_refine (self : PatternDetector) (r : Q) :
  stable_threshold self <= Qabs r -> linear_threshold self <= Qabs r ->
  determine_optimal_scheduler (detect_pattern self r) = SchedulerType.REFINE_LB.
Proof.
  intros H1 H2. unfold detect_pattern, Py.abs.
  destruct (Py.lt (Qabs r) (stable_threshold self)) eqn:E1; [apply lt_true in E1; lra|].
  destruct (Py.lt (Qabs r) (linear_threshold self)) eqn:E2; [apply lt_true in E2; lra|].
  reflexivity.
Qed.

End Routing.

(** X7.  Classification looks at the size of the rate only: a rate and its
    opposite get the same pattern, so a shrinking cluster is routed like a
    growing one.  Whatever the thresholds, the greedy placer is chosen
    exactly when |rate| is below the stable or the linear threshold, and the
    refined placer otherwise; and every pattern name other than "stable"
    and "linear" is routed to the refined placer. *)
Theorem routing_by_magnitude (self : Detector.PatternDetector) (r : Q) :
  Detector.detect_pattern self (- r) = Detector.detect_pattern self r /\
  (Qabs r < Detector.stable_threshold self \/ Qabs r < Detector.linear_threshold self ->
   Detector.determine_optimal_scheduler (Detector.detect_pattern self r)
   = "greedylb-scheduler") /\
  (Detector.stable_threshold self <= Qabs r ->
   Detector.linear_threshold self <= Qabs r ->
   Detector.determine_optimal_scheduler (Detector.detect_pattern self r)
   = "refinelb-scheduler") /\
  (forall pattern : string,
      pattern <> "stable" -> pattern <> "linear" ->
      Detector.determine_optimal_scheduler pattern = "refinelb-scheduler").
Proof.
  split; [apply detect_pattern_opp|].
  split; [apply routed_to_greedy|]. split; [apply routed_to_refine|].
  intros pattern H1 H2. unfold Detector.determine_optimal_scheduler, Detector.in_strings.
  cbn [existsb]. unfold Detector.WorkloadPattern.STABLE, Detector.WorkloadPattern.LINEAR.
  destruct (String.eqb_spec pattern "stable"); [contradiction|].
  destruct (String.eqb_spec pattern "linear"); [contradiction|]. reflexivity.
Qed.

Lemma routing_by_magnitude_witness :
  Detector.determine_optimal_scheduler
    (Detector.detect_pattern Detector.default_detector (-50)) = "refinelb-scheduler" /\
  Detector.determine_optimal_scheduler
    (Detector.detect_pattern Detector.default_detector (-20)) = "greedylb-scheduler" /\
  Detector.determine_optimal_scheduler "unknown" = "refinelb-scheduler".
Proof.
  split; [|split].
  - apply (routing_by_magnitude Detector.default_detector (-50)); vm_compute; discriminate.
  - apply (routing_by_magnitude Detector.default_detector (-20)).
    right. vm_compute. reflexivity.
  - apply (routing_by_magnitude Detector.default_detector 0); discriminate.
Defined.

(** X8.  What the decision step chooses at the edges of the rate
    computation.  With thresholds of at most 100, a window of two or more
    samples that starts at 0 pods and ends above 0 is routed to the refined
    placer (the start-up rate is 100).  With a positive stable threshold, a
    window with fewer than two samples and a window of equal samples
    (zero or not) are routed to the greedy placer. *)
Theorem decision_at_edge_windows
    (api : Detector.Api) (cl : K8s.Cluster) (self : Detector.PatternDetector) :
  let w := Detector.pod_count_history self in
  let chosen := Detector.optimal_scheduler (Detector.decision_step api cl self) in
  (Detector.stable_threshold self <= 100 -> Detector.linear_threshold self <= 100 ->
   (2 <= length w)%nat -> hd 0%N w = 0%N -> (0 < List.last w 0%N)%N ->
   chosen = "refinelb-scheduler") /\
  (0 < Detector.stable_threshold self -> (length w < 2)%nat ->
   chosen = "greedylb-scheduler") /\
  (0 < Detector.stable_threshold self ->
   Derived.nondecreasing w -> Derived.nonincreasing w ->
   chosen = "greedylb-scheduler").
Proof.
  cbv zeta. rewrite decision_step_optimal. split; [|split].
  - intros Hs Hl Hlen Hold Hnew.
    assert (E : Detector.calculate_growth_rate self = (100, "startup")).
    { unfold Detector.calculate_growth_rate.
      destruct (Nat.ltb_spec (length (Detector.pod_count_history self)) 2); [lia|].
      rewrite Hold. cbn [N.eqb]. apply N.ltb_lt in Hnew. now rewrite Hnew. }
    rewrite E. cbn [fst]. apply routed_to_refine;
      change (Qabs 100) with 100; assumption.
  - intros Hs Hlen.
    assert (E : Detector.calculate_growth_rate self = (0, "insufficient_data")).
    { unfold Detector.calculate_growth_rate.
      now destruct (Nat.ltb_spec (length (Detector.pod_count_history self)) 2); [|lia]. }
    rewrite E. cbn [fst]. apply routed_to_greedy. left. exact Hs.
  - intros Hs Hup Hdown.
    pose proof (rate_nonneg_of_nondecreasing self Hup) as up.
    pose proof (rate_nonpos_of_nonincreasing self Hdown) as down.
    apply routed_to_greedy. left.
    assert (E : Qabs (fst (Detector.calculate_growth_rate self)) == 0).
    { rewrite (Qle_antisym _ _ down up). reflexivity. }
    rewrite E. exact Hs.
Qed.

Lemma decision_at_edge_windows_witness :
  Detector.optimal_scheduler
    (Detector.decision_step
       {| Detector.list_pods_ok := true; Detector.list_deployments_ok := true;
          Detector.patch_ok := fun _ => true |}
       Scenario.cluster_full (Detector.holding [0; 0; 4]%N)) = "refinelb-scheduler" /\
  Detector.optimal_scheduler
    (Detector.decision_step
       {| Detector.list_pods_ok := true; Detector.list_deployments_ok := true;
          Detector.patch_ok := fun _ => true |}
       Scenario.cluster_full (Detector.holding [3; 3; 3]%N)) = "greedylb-scheduler".
Proof.
  split.
  - eapply decision_at_edge_windows;
      [vm_compute; discriminate | vm_compute; discriminate
      | simpl; lia | reflexivity | simpl; lia].
  - eapply decision_at_edge_windows;
      [vm_compute; reflexivity | repeat constructor; simpl; lia
      | repeat constructor; simpl; lia].
Defined.

(** ** What [switch_scheduler] patches *)

Section Switching.
Import K8s Detector.

(** The loop, as a filter and two maps over the listed deployments. *)
Lemma switch_loop_spec (api : Api) (target : string) (items : list Deployment)
    (acc : Switched) :
  switch_loop api target items acc
  = {| switched_count :=
         switched_count acc
         + Z.of_nat (length (List.filter (patch_ok api)
                               (map (Derived.retarget target)
                                  (List.filter (Derived.needs_switch target) items))));
       patches_sent :=
         patches_sent acc
         ++ map (Derived.retarget target) (List.filter (Derived.needs_switch target) items);
       deployments_after :=
         deployments_after acc ++ map (Derived.after_switch api target) items |}.
Proof.
  revert acc. induction items as [|d items IH]; intros acc.
  - cbn. rewrite Z.add_0_r, !app_nil_r. now destruct acc.
  - cbn [switch_loop].
    destruct (in_strings (dep_namespace d) system_namespaces) eqn:Ens;
      [|destruct (same_scheduler (dep_scheduler_name d) target) eqn:Esame];
      cbn [negb].
    + assert (Hn : Derived.needs_switch target d = false)
        by (unfold Derived.needs_switch; now rewrite Ens).
      assert (Ha : Derived.after_switch api target d = d)
        by (unfold Derived.after_switch; now rewrite Hn).
      rewrite IH. cbn [switched_count patches_sent deployments_after List.filter map].
      rewrite Hn, Ha, <- !app_assoc. reflexivity.
    + assert (Hn : Derived.needs_switch target d = false)
        by (unfold Derived.needs_switch; rewrite Esame; now rewrite andb_false_r).
      assert (Ha : Derived.after_switch api target d = d)
        by (unfold Derived.after_switch; now rewrite Hn).
      rewrite IH. cbn [switched_count patches_sent deployments_after List.filter map].
      rewrite Hn, Ha, <- !app_assoc. reflexivity.
    + assert (Hn : Derived.needs_switch target d = true)
        by (unfold Derived.needs_switch; now rewrite Ens, Esame).
      fold (Derived.retarget target d).
      destruct (patch_ok api (Derived.retarget target d)) eqn:Eok.
      * assert (Ha : Derived.after_switch api target d = Derived.retarget target d)
          by (unfold Derived.after_switch; now rewrite Hn, Eok).
        rewrite IH. cbn [switched_count patches_sent deployments_after List.filter map].
        rewrite Hn. cbn [map List.filter]. rewrite Eok, Ha, <- !app_assoc.
        cbn [app length]. f_equal. lia.
      * assert (Ha : Derived.after_switch api target d = d)
          by (unfold Derived.after_switch; now rewrite Hn, Eok).
        rewrite IH. cbn [switched_count patches_sent deployments_after List.filter map].
        rewrite Hn. cbn [map List.filter]. rewrite Eok, Ha, <- !app_assoc.
        reflexivity.
Qed.

Lemma switch_scheduler_spec (api : Api) (cl : Cluster) (target : string) :
  list_deployments_ok api = true ->
  switch_scheduler api cl target
  = {| switched_count :=
         Z.of_nat (length (List.filter (patch_ok api)
                             (map (Derived.retarget target)
                                (List.filter (Derived.needs_switch target)
                                   (deployments cl)))));
       patches_sent :=
         map (Derived.retarget target)
           (List.filter (Derived.needs_switch target) (deployments cl));
       deployments_after := map (Derived.after_switch api target) (deployments cl) |}.
Proof.
  intros H. unfold switch_scheduler. rewrite H. now rewrite switch_loop_spec.
Qed.

(** Once patched, or not in need of a patch, a deployment needs none. *)
Lemma after_switch_settled (api : Api) (target : string) (d : Deployment) :
  Derived.needs_switch target d = false
  \/ patch_ok api (Derived.retarget target d) = true ->
  Derived.needs_switch target (Derived.after_switch api target d) = false.
Proof.
  unfold Derived.after_switch.
  destruct (Derived.needs_switch target d) eqn:En; cbn [andb].
  - intros [H|H]; [discriminate|]. rewrite H.
    unfold Derived.needs_switch. cbn [Derived.retarget dep_namespace dep_scheduler_name].
    rewrite same_scheduler_refl. now rewrite andb_false_r.
  - intros _. exact En.
Qed.

Lemma patches_in_decision (api : Api) (cl : Cluster) (self : PatternDetector)
    (body : Deployment) :
  In body (patches (decision_step api cl self)) ->
  In body (patches_sent (switch_scheduler api cl
                           (optimal_scheduler (decision_step api cl self)))).
Proof.
  unfold decision_step. destruct (calculate_growth_rate self) as [rate trend].
  destruct (negb _); cbn [patches optimal_scheduler]; [auto | intros []].
Qed.

End Switching.

(** X9.  When the listing succeeds, [switch_scheduler] sends one patch for
    each deployment outside the system namespaces that does not declare the
    target, in listing order, each setting the target and nothing else; it
    returns the number of patches the server accepted; and afterwards the
    server holds the target for exactly the accepted ones.  When the listing
    fails it sends nothing and returns 0. *)
Theorem switch_scheduler_patches
    (api : Detector.Api) (cl : K8s.Cluster) (target : string) :
  let run := Detector.switch_scheduler api cl target in
  let due := List.filter (Derived.needs_switch target) (K8s.deployments cl) in
  (Detector.list_deployments_ok api = true ->
   Detector.patches_sent run = map (Derived.retarget target) due /\
   Detector.switched_count run
   = Z.of_nat (length (List.filter (Detector.patch_ok api) (Detector.patches_sent run))) /\
   Detector.deployments_after run
   = map (Derived.after_switch api target) (K8s.deployments cl)) /\
  (Detector.list_deployments_ok api = false ->
   run = {| Detector.switched_count := 0; Detector.patches_sent := [];
            Detector.deployments_after := K8s.deployments cl |}).
Proof.
  cbv zeta. split.
  - intros H. rewrite (switch_scheduler_spec api cl target H).
    cbn [Detector.patches_sent Detector.switched_count Detector.deployments_after].
    repeat split.
  - intros H. unfold Detector.switch_scheduler. now rewrite H.
Qed.

(** X10.  The detector never patches a deployment of kube-system,
    kube-public or kube-node-lease, and never one that already declares the
    chosen placer: every patch a decision step sends is for a listed
    deployment outside those namespaces whose declared scheduler differs
    from the chosen placer, and sets exactly the chosen placer. *)
Theorem decision_patches_only_user_deployments
    (api : Detector.Api) (cl : K8s.Cluster) (self : Detector.PatternDetector)
    (body : K8s.Deployment) :
  In body (Detector.patches (Detector.decision_step api cl self)) ->
  let chosen := Detector.optimal_scheduler (Detector.decision_step api cl self) in
  K8s.dep_scheduler_name body = Some chosen /\
  Detector.in_strings (K8s.dep_namespace body) Detector.system_namespaces = false /\
  exists d, In d (K8s.deployments cl) /\
            K8s.dep_namespace d = K8s.dep_namespace body /\
            K8s.dep_name d = K8s.dep_name body /\
            K8s.dep_scheduler_name d <> Some chosen.
Proof.
  intros Hin. cbv zeta. apply patches_in_decision in Hin.
  set (chosen := Detector.optimal_scheduler (Detector.decision_step api cl self)) in *.
  destruct (Detector.list_deployments_ok api) eqn:Eok.
  - rewrite (switch_scheduler_spec api cl chosen Eok) in Hin.
    cbn [Detector.patches_sent] in Hin.
    apply List.in_map_iff in Hin as (d & <- & Hd).
    apply List.filter_In in Hd as [Hd Hneed].
    unfold Derived.needs_switch in Hneed.
    apply andb_true_iff in Hneed as [Hns Hsame].
    apply negb_true_iff in Hns, Hsame.
    split; [reflexivity|]. split; [exact Hns|].
    exists d. repeat split; [exact Hd|].
    intros E. rewrite E, same_scheduler_refl in Hsame. discriminate.
  - unfold Detector.switch_scheduler in Hin. rewrite Eok in Hin. destruct Hin.
Qed.

Lemma switch_scheduler_patches_witness :
  Detector.patches_sent
    (Detector.switch_scheduler Fleet.api_flaky Fleet.cluster "refinelb-scheduler")
  = [Derived.retarget "refinelb-scheduler" Fleet.web;
     Derived.retarget "refinelb-scheduler" Fleet.plain] /\
  Detector.switched_count
    (Detector.switch_scheduler Fleet.api_flaky Fleet.cluster "refinelb-scheduler") = 1%Z /\
  Detector.patches_sent
    (Detector.switch_scheduler Fleet.api_down Fleet.cluster "refinelb-scheduler") = [].
Proof.
  destruct (switch_scheduler_patches Fleet.api_flaky Fleet.cluster "refinelb-scheduler")
    as [ok _].
  destruct (ok eq_refl) as (sent & count & _).
  destruct (switch_scheduler_patches Fleet.api_down Fleet.cluster "refinelb-scheduler")
    as [_ down].
  split; [exact sent|]. split; [rewrite count; reflexivity|].
  now rewrite (down eq_refl).
Defined.

Lemma decision_patches_only_user_deployments_witness :
  K8s.dep_scheduler_name (Derived.retarget "greedylb-scheduler" Fleet.batch)
  = Some (Detector.optimal_scheduler
            (Detector.decision_step Fleet.api_up Fleet.cluster (Detector.holding [3; 3]%N))).
Proof.
  apply (decision_patches_only_user_deployments
           Fleet.api_up Fleet.cluster (Detector.holding [3; 3]%N)).
  vm_compute. left. reflexivity.
Defined.

Section Convergence.
Import K8s Detector.

Lemma filter_none {A} (f : A -> bool) (l : list A) :
  (forall x, In x l -> f x = false) -> List.filter f l = [].
Proof.
  induction l as [|x l IH]; intros H; [reflexivity|].
  cbn [List.filter]. rewrite (H x (or_introl eq_refl)).
  apply IH. intros y Hy. apply H. now right.
Qed.

Lemma switch_scheduler_nothing_due (api : Api) (cl : Cluster) (target : string) :
  (forall d, In d (deployments cl) -> Derived.needs_switch target d = false) ->
  patches_sent (switch_scheduler api cl target) = [] /\
  switched_count (switch_scheduler api cl target) = 0%Z /\
  deployments_after (switch_scheduler api cl target) = deployments cl.
Proof.
  intros H. destruct (list_deployments_ok api) eqn:Eok.
  - rewrite (switch_scheduler_spec api cl target Eok).
    cbn [patches_sent switched_count deployments_after].
    rewrite (filter_none _ _ H). cbn. repeat split.
    rewrite <- (map_id (deployments cl)) at 2. apply List.map_ext_in.
    intros d Hd. unfold Derived.after_switch. now rewrite (H d Hd).
  - unfold switch_scheduler. rewrite Eok. repeat split.
Qed.

End Convergence.

(** X11.  Switching converges.  A run always leaves the listed deployments
    with their namespaces and names, in order.  When the listing succeeds
    and the server accepts every patch the run sends, every deployment
    outside the system namespaces declares the target afterwards, and a
    further run, whatever the server then answers, sends no patch, returns
    0 and changes nothing. *)
Theorem switch_scheduler_converges
    (api again : Detector.Api) (cl : K8s.Cluster) (target : string) :
  let run := Detector.switch_scheduler api cl target in
  let cl' := Detector.with_deployments cl (Detector.deployments_after run) in
  map (fun d => (K8s.dep_namespace d, K8s.dep_name d)) (Detector.deployments_after run)
  = map (fun d => (K8s.dep_namespace d, K8s.dep_name d)) (K8s.deployments cl) /\
  (Detector.list_deployments_ok api = true ->
   (forall body, In body (Detector.patches_sent run) -> Detector.patch_ok api body = true) ->
   (forall d, In d (K8s.deployments cl') ->
              Detector.in_strings (K8s.dep_namespace d) Detector.system_namespaces = false ->
              K8s.dep_scheduler_name d = Some target) /\
   Detector.patches_sent (Detector.switch_scheduler again cl' target) = [] /\
   Detector.switched_count (Detector.switch_scheduler again cl' target) = 0%Z /\
   Detector.deployments_after (Detector.switch_scheduler again cl' target)
   = K8s.deployments cl').
Proof.
  cbv zeta. split.
  - destruct (Detector.list_deployments_ok api) eqn:Eok.
    + rewrite (switch_scheduler_spec api cl target Eok).
      cbn [Detector.deployments_after]. rewrite List.map_map. apply List.map_ext.
      intros d. unfold Derived.after_switch. now destruct (_ && _)%bool.
    + unfold Detector.switch_scheduler. now rewrite Eok.
  - intros Eok Hall. rewrite (switch_scheduler_spec api cl target Eok) in *.
    cbn [Detector.deployments_after Detector.patches_sent Detector.with_deployments
           K8s.deployments] in *.
    assert (settled : forall d,
      In d (map (Derived.after_switch api target) (K8s.deployments cl)) ->
      Derived.needs_switch target d = false).
    { intros d' Hd'. apply List.in_map_iff in Hd' as (d & <- & Hd).
      apply after_switch_settled.
      destruct (Derived.needs_switch target d) eqn:En; [right | now left].
      apply Hall. apply List.in_map. apply List.filter_In. now split. }
    split.
    + intros d Hd Hns. specialize (settled d Hd).
      unfold Derived.needs_switch in settled. rewrite Hns in settled.
      cbn [negb andb] in settled. apply negb_false_iff in settled.
      now apply same_scheduler_eq.
    + now apply switch_scheduler_nothing_due.
Qed.

Lemma switch_scheduler_converges_witness :
  Detector.patches_sent
    (Detector.switch_scheduler Fleet.api_flaky
       (Detector.with_deployments Fleet.cluster
          (Detector.deployments_after
             (Detector.switch_scheduler Fleet.api_up Fleet.cluster "refinelb-scheduler")))
       "refinelb-scheduler") = [].
Proof.
  destruct (switch_scheduler_converges Fleet.api_up Fleet.api_flaky Fleet.cluster
              "refinelb-scheduler") as [_ H].
  apply H; [reflexivity | intros body _; reflexivity].
Defined.

(** ** GreedyLB selects the first node of highest score *)

Section GreedyMaximum.
Import K8s.

(** The state of the selection loop after a list of nodes: either nothing
    was kept and no score exceeded -1, or the loop keeps a node of the list
    with its score, which exceeds the scores before it and is not exceeded
    by those after it. *)
Lemma greedy_fold_state (cl : Cluster) (nodes : list Node) :
  let r := fold_left (GreedyLB.select_step cl) nodes (None, -1) in
  (r = (None, -1) /\
   forall m, In m nodes -> GreedyLB.calculate_node_score cl m <= -1) \/
  (exists pre n post,
      nodes = pre ++ n :: post /\
      r = (Some n, GreedyLB.calculate_node_score cl n) /\
      -1 < GreedyLB.calculate_node_score cl n /\
      (forall m, In m pre ->
                 GreedyLB.calculate_node_score cl m < GreedyLB.calculate_node_score cl n) /\
      (forall m, In m post ->
                 GreedyLB.calculate_node_score cl m <= GreedyLB.calculate_node_score cl n)).
Proof.
  cbv zeta. induction nodes as [|x l IH] using rev_ind.
  - left. split; [reflexivity | intros m []].
  - rewrite fold_left_app. cbn [fold_left].
    destruct IH as [[E Hall] | (pre & n & post & El & E & Hn & Hpre & Hpost)];
      rewrite E; unfold GreedyLB.select_step; cbn [snd].
    + destruct (Py.gt (GreedyLB.calculate_node_score cl x) (-1)) eqn:G.
      * apply gt_true in G. right. exists l, x, []. repeat split; try assumption.
        -- intros m Hm. specialize (Hall m Hm). lra.
        -- intros m [].
      * apply gt_false in G. left. split; [reflexivity|].
        intros m Hm. apply in_app_or in Hm as [Hm|[<-|[]]]; auto.
    + destruct (Py.gt (GreedyLB.calculate_node_score cl x)
                  (GreedyLB.calculate_node_score cl n)) eqn:G.
      * apply gt_true in G. right. exists l, x, []. repeat split; try lra.
        -- intros m Hm. rewrite El in Hm.
           apply in_app_or in Hm as [Hm|[<-|Hm]];
             [specialize (Hpre m Hm) | | specialize (Hpost m Hm)]; lra.
        -- intros m [].
      * apply gt_false in G. right. exists pre, n, (post ++ [x]).
        repeat split; try assumption.
        -- rewrite El. now rewrite <- app_assoc.
        -- intros m Hm. apply in_app_or in Hm as [Hm|[<-|[]]]; auto.
Qed.

End GreedyMaximum.

(** X12.  The node GreedyLB selects has a score above -1 that no candidate
    exceeds, and it is the first candidate with that score: every node
    before it in the list scores strictly less.  Whenever some candidate
    scores above -1, a node is selected. *)
Theorem greedy_selects_first_maximum (cl : K8s.Cluster) (nodes : list K8s.Node) :
  (forall node,
      GreedyLB.select_best_node cl nodes = Some node ->
      -1 < GreedyLB.calculate_node_score cl node /\
      (forall m, In m nodes ->
                 GreedyLB.calculate_node_score cl m
                 <= GreedyLB.calculate_node_score cl node) /\
      exists pre post,
        nodes = pre ++ node :: post /\
        forall m, In m pre ->
                  GreedyLB.calculate_node_score cl m
                  < GreedyLB.calculate_node_score cl node) /\
  ((exists m, In m nodes /\ -1 < GreedyLB.calculate_node_score cl m) ->
   exists node, GreedyLB.select_best_node cl nodes = Some node).
Proof.
  pose proof (greedy_fold_state cl nodes) as S. cbv zeta in S.
  assert (Esel : GreedyLB.select_best_node cl nodes
                 = fst (fold_left (GreedyLB.select_step cl) nodes (None, -1)))
    by (destruct nodes; reflexivity).
  rewrite Esel. split.
  - intros node Hsel.
    destruct S as [[E _] | (pre & n & post & El & E & Hn & Hpre & Hpost)];
      rewrite E in Hsel; cbn [fst] in Hsel; [discriminate|].
    injection Hsel as <-. split; [exact Hn|]. split.
    + intros m Hm. rewrite El in Hm.
      apply in_app_or in Hm as [Hm|[<-|Hm]];
        [specialize (Hpre m Hm); lra | lra | now apply Hpost].
    + exists pre, post. split; assumption.
  - intros (m & Hm & Hpos).
    destruct S as [[_ Hall] | (pre & n & post & _ & E & _)].
    + specialize (Hall m Hm). lra.
    + exists n. now rewrite E.
Qed.

Lemma greedy_selects_first_maximum_witness :
  GreedyLB.calculate_node_score Scenario.cluster_abcd Scenario.node_b
  <= GreedyLB.calculate_node_score Scenario.cluster_abcd Scenario.node_a.
Proof.
  destruct (greedy_selects_first_maximum Scenario.cluster_abcd
              (K8s.get_schedulable_nodes Scenario.cluster_abcd)) as [sel _].
  destruct (sel Scenario.node_a) as (_ & best & _); [vm_compute; reflexivity|].
  apply best. vm_compute. auto.
Defined.

(** ** RefineLB selects the first node of highest positive score *)

Section RefineMaximum.
Import K8s.

Lemma insert_desc_nonempty (x : Node * Q) (l : list (Node * Q)) :
  RefineLB.insert_desc x l <> [].
Proof. destruct l as [|y l]; simpl; [|destruct (Py.gt _ _)]; discriminate. Qed.

Lemma sort_desc_nil (l : list (Node * Q)) : RefineLB.sort_desc l = [] -> l = [].
Proof.
  destruct l as [|x l]; [reflexivity|].
  cbn [RefineLB.sort_desc fold_right]. intros H. now apply insert_desc_nonempty in H.
Qed.

(** The head of the sorted list is the first entry of highest score. *)
Lemma sort_desc_head (l : list (Node * Q)) (top : Node * Q) (rest : list (Node * Q)) :
  RefineLB.sort_desc l = top :: rest ->
  exists pre post,
    l = pre ++ top :: post /\
    (forall y, In y pre -> snd y < snd top) /\
    (forall y, In y post -> snd y <= snd top).
Proof.
  revert top rest. induction l as [|x l IH]; intros top rest; [discriminate|].
  change (RefineLB.sort_desc (x :: l)) with (RefineLB.insert_desc x (RefineLB.sort_desc l)).
  destruct (RefineLB.sort_desc l) as [|y ys] eqn:Es.
  - apply sort_desc_nil in Es. subst l. cbn. intros H. injection H as <- _.
    exists [], []. repeat split; intros y [].
  - destruct (IH y ys eq_refl) as (pre & post & El & Hpre & Hpost).
    cbn [RefineLB.insert_desc]. destruct (Py.gt (snd y) (snd x)) eqn:G.
    + apply gt_true in G. intros H. injection H as <- _.
      exists (x :: pre), post. split; [now rewrite El|]. split; [|exact Hpost].
      intros z [<-|Hz]; [exact G | now apply Hpre].
    + apply gt_false in G. intros H. injection H as <- _.
      exists [], l. split; [reflexivity|]. split; [intros z []|].
      intros z Hz. rewrite El in Hz.
      apply in_app_or in Hz as [Hz|[<-|Hz]];
        [specialize (Hpre z Hz) | | specialize (Hpost z Hz)]; lra.
Qed.

(** Every node of positive score has its entry in [scored_nodes]. *)
Lemma score_nodes_complete (cl : Cluster) (req : RefineLB.PodRequest)
    (all : list RefineLB.Usage) (nodes : list Node) (m : Node) :
  In m nodes -> 0 < RefineLB.calculate_refined_score cl m req all ->
  In (m, RefineLB.calculate_refined_score cl m req all)
     (RefineLB.score_nodes cl req all nodes).
Proof.
  intros Hin Hpos. induction nodes as [|n nodes IH]; [destruct Hin|].
  cbn [RefineLB.score_nodes].
  destruct Hin as [->|Hin].
  - apply gt_true in Hpos. rewrite Hpos. now left.
  - destruct (Py.gt _ _); [right|]; now apply IH.
Qed.

(** A split of [scored_nodes] at an entry comes from a split of the nodes. *)
Lemma score_nodes_split (cl : Cluster) (req : RefineLB.PodRequest)
    (all : list RefineLB.Usage) (nodes : list Node)
    (pre' post' : list (Node * Q)) (n : Node) (s : Q) :
  RefineLB.score_nodes cl req all nodes = pre' ++ (n, s) :: post' ->
  exists pre post,
    nodes = pre ++ n :: post /\ RefineLB.score_nodes cl req all pre = pre'.
Proof.
  revert pre'. induction nodes as [|m nodes IH]; intros pre' H.
  - destruct pre'; discriminate.
  - cbn [RefineLB.score_nodes] in H.
    destruct (Py.gt (RefineLB.calculate_refined_score cl m req all) 0) eqn:G.
    + destruct pre' as [|p pre'].
      * injection H as -> _ _. exists [], nodes. split; reflexivity.
      * injection H as <- H. destruct (IH pre' H) as (pre & post & -> & Ep).
        exists (m :: pre), post. split; [reflexivity|].
        cbn [RefineLB.score_nodes]. now rewrite G, Ep.
    + destruct (IH pre' H) as (pre & post & -> & Ep).
      exists (m :: pre), post. split; [reflexivity|].
      cbn [RefineLB.score_nodes]. now rewrite G.
Qed.

Lemma collect_usage_nonempty (cl : Cluster) (nodes : list Node) (m : Node)
    (u : RefineLB.Usage) :
  In m nodes -> RefineLB.get_node_resource_usage cl m = Some u ->
  RefineLB.collect_usage cl nodes <> [].
Proof.
  intros Hin Hu E.
  assert (H : u ∈ RefineLB.collect_usage cl nodes).
  { apply list_elem_of_omap. exists m. split; [now apply list_elem_of_In | exact Hu]. }
  rewrite E in H. now apply not_elem_of_nil in H.
Qed.

Lemma score_without_usage (cl : Cluster) (node : Node) (req : RefineLB.PodRequest) :
  RefineLB.calculate_refined_score cl node req [] = 0.
Proof.
  unfold RefineLB.calculate_refined_score.
  destruct (RefineLB.get_node_resource_usage cl node) as [u|]; [|reflexivity].
  destruct (RefineLB.cannot_schedule u req); reflexivity.
Qed.

Lemma score_nodes_without_usage (cl : Cluster) (req : RefineLB.PodRequest)
    (nodes : list Node) :
  RefineLB.score_nodes cl req [] nodes = [].
Proof.
  induction nodes as [|n nodes IH]; [reflexivity|].
  cbn [RefineLB.score_nodes]. now rewrite score_without_usage.
Qed.

(** [select_best_node] returns the node of the head of the sorted list. *)
Lemma refine_select_head (cl : Cluster) (nodes : list Node) (pod : Pod)
    (req : RefineLB.PodRequest) :
  RefineLB.get_pod_resource_requests pod = Returned req ->
  RefineLB.select_best_node cl nodes pod
  = Returned
      match RefineLB.sort_desc
              (RefineLB.score_nodes cl req (RefineLB.collect_usage cl nodes) nodes) with
      | [] => None
      | (best, _) :: _ => Some best
      end.
Proof.
  intros Hreq. unfold RefineLB.select_best_node.
  destruct nodes as [|n0 ns]; [reflexivity|].
  rewrite Hreq. cbn [bind_outcome].
  destruct (RefineLB.collect_usage cl (n0 :: ns)) as [|u0 us].
  - now rewrite score_nodes_without_usage.
  - destruct (RefineLB.sort_desc _) as [|[best s] rest]; reflexivity.
Qed.

End RefineMaximum.

(** X13.  For a pod whose request can be read, the node RefineLB selects has
    a positive score that no candidate exceeds, and it is the first
    candidate with that score: every node before it scores strictly less.
    Whenever some candidate has a positive score, a node is selected. *)
Theorem refine_selects_first_maximum
    (cl : K8s.Cluster) (nodes : list K8s.Node) (pod : K8s.Pod)
    (req : RefineLB.PodRequest) :
  RefineLB.get_pod_resource_requests pod = Returned req ->
  let score node :=
    RefineLB.calculate_refined_score cl node req (RefineLB.collect_usage cl nodes) in
  (forall node,
      RefineLB.select_best_node cl nodes pod = Returned (Some node) ->
      0 < score node /\
      (forall m, In m nodes -> score m <= score node) /\
      exists pre post,
        nodes = pre ++ node :: post /\ forall m, In m pre -> score m < score node) /\
  ((exists m, In m nodes /\ 0 < score m) ->
   exists node, RefineLB.select_best_node cl nodes pod = Returned (Some node)).
Proof.
  intros Hreq. cbv zeta. rewrite (refine_select_head cl nodes pod req Hreq).
  set (all := RefineLB.collect_usage cl nodes).
  destruct (RefineLB.sort_desc (RefineLB.score_nodes cl req all nodes))
    as [|[best s] rest] eqn:Es.
  - split; [intros node H; discriminate|].
    intros (m & Hm & Hpos). apply sort_desc_nil in Es.
    pose proof (score_nodes_complete cl req all nodes m Hm Hpos) as Hs.
    rewrite Es in Hs. destruct Hs.
  - split; [|intros _; now exists best].
    intros node Hsel. injection Hsel as ->.
    destruct (sort_desc_head _ _ _ Es) as (pre' & post' & El & Hpre & Hpost).
    assert (Hin : In (node, s) (RefineLB.score_nodes cl req all nodes))
      by (rewrite El; apply in_or_app; right; now left).
    apply score_nodes_in in Hin as (Hnode & -> & Hpos).
    cbn [snd] in Hpre, Hpost.
    split; [exact Hpos|]. split.
    + intros m Hm.
      destruct (Qlt_le_dec 0 (RefineLB.calculate_refined_score cl m req all)) as [P|P];
        [|lra].
      pose proof (score_nodes_complete cl req all nodes m Hm P) as Hs.
      rewrite El in Hs. apply in_app_or in Hs as [Hs|[Hs|Hs]].
      * specialize (Hpre _ Hs). cbn [snd] in Hpre. lra.
      * injection Hs as _ Hs. rewrite Hs. lra.
      * specialize (Hpost _ Hs). exact Hpost.
    + destruct (score_nodes_split cl req all nodes pre' post' node _ El)
        as (pre & post & Enodes & Epre).
      exists pre, post. split; [exact Enodes|].
      intros m Hm.
      destruct (Qlt_le_dec 0 (RefineLB.calculate_refined_score cl m req all)) as [P|P];
        [|lra].
      pose proof (score_nodes_complete cl req all pre m Hm P) as Hs.
      rewrite Epre in Hs. specialize (Hpre _ Hs). exact Hpre.
Qed.

Lemma refine_selects_first_maximum_witness :
  exists req,
    RefineLB.get_pod_resource_requests Scenario.small_pod = Returned req /\
    RefineLB.calculate_refined_score Scenario.cluster_abcd Scenario.node_b req
      (RefineLB.collect_usage Scenario.cluster_abcd
         (K8s.get_schedulable_nodes Scenario.cluster_abcd))
    <= RefineLB.calculate_refined_score Scenario.cluster_abcd Scenario.node_a req
         (RefineLB.collect_usage Scenario.cluster_abcd
            (K8s.get_schedulable_nodes Scenario.cluster_abcd)).
Proof.
  destruct (RefineLB.get_pod_resource_requests Scenario.small_pod) as [req|] eqn:Hreq;
    [|vm_compute in Hreq; discriminate].
  exists req. split; [reflexivity|].
  destruct (refine_selects_first_maximum Scenario.cluster_abcd
              (K8s.get_schedulable_nodes Scenario.cluster_abcd)
              Scenario.small_pod req Hreq) as [sel _].
  destruct (sel Scenario.node_a) as (_ & best & _).
  - assert (Er : Returned req = RefineLB.get_pod_resource_requests Scenario.small_pod)
      by (now rewrite Hreq).
    vm_compute in Er. injection Er as ->. vm_compute. reflexivity.
  - apply best. vm_compute. auto.
Defined.

(** ** The greedy score, read off the usage of the node *)

Section GreedyScore.
Import K8s.

(** Both schedulers read a node the same way: the greedy score is computed
    from the fields of the usage record, and is 0 when there is none. *)
Lemma greedy_score_of_usage (cl : Cluster) (node : Node) :
  GreedyLB.calculate_node_score cl node
  = match RefineLB.get_node_resource_usage cl node with
    | Some u =>
        (RefineLB.cpu_available u / Py.max (RefineLB.cpu_allocatable u) 1) * 70
        + (RefineLB.memory_available u / Py.max (RefineLB.memory_allocatable u) 1) * 30
    | None => 0
    end.
Proof.
  unfold GreedyLB.calculate_node_score, RefineLB.get_node_resource_usage.
  destruct (Resources.parse_cpu _) as [ca|]; [|reflexivity].
  destruct (Resources.parse_memory _) as [ma|]; [|reflexivity].
  cbn [bind_outcome].
  destruct (pods_usage _ _) as [[cu mu]|]; reflexivity.
Qed.

Lemma max_1_ge (a : Q) : a <= Py.max a 1.
Proof.
  unfold Py.max. destruct (Py.lt a 1) eqn:E; [apply lt_true in E|]; lra.
Qed.

Lemma ratio_le_1 (avail alloc used : Q) :
  avail = alloc - used -> 0 <= used -> avail / Py.max alloc 1 <= 1.
Proof.
  intros -> Hused. pose proof (max_1_pos alloc). pose proof (max_1_ge alloc).
  apply Qle_shift_div_r; lra.
Qed.

Lemma available_ratio (alloc used : Q) :
  1 <= alloc -> (alloc - used) / Py.max alloc 1 == 1 - used / Py.max alloc 1.
Proof.
  intros H. rewrite (max_1_of_ge alloc H). field. lra.
Qed.

End GreedyScore.

(** X14.  The greedy score of a node is 0 when its usage cannot be read (an
    allocatable amount or a request of one of its pods does not parse).
    Otherwise, with at least 1 millicore and 1 byte allocatable, it is
    100 - (0.7 * cpu_utilization + 0.3 * memory_utilization) of the usage
    RefineLB computes, so a node without pods scores 100; and whenever the
    requests on the node are not negative the score is at most 100. *)
Theorem greedy_score_and_usage (cl : K8s.Cluster) (node : K8s.Node) :
  (RefineLB.get_node_resource_usage cl node = None ->
   GreedyLB.calculate_node_score cl node = 0) /\
  (forall u,
      RefineLB.get_node_resource_usage cl node = Some u ->
      (1 <= RefineLB.cpu_allocatable u -> 1 <= RefineLB.memory_allocatable u ->
       GreedyLB.calculate_node_score cl node
       == 100 - (0.7 * RefineLB.cpu_utilization u + 0.3 * RefineLB.memory_utilization u)) /\
      (1 <= RefineLB.cpu_allocatable u -> 1 <= RefineLB.memory_allocatable u ->
       K8s.list_pods_on_node cl (K8s.node_name node) = [] ->
       GreedyLB.calculate_node_score cl node == 100) /\
      (0 <= RefineLB.cpu_used u -> 0 <= RefineLB.memory_used u ->
       GreedyLB.calculate_node_score cl node <= 100)).
Proof.
  rewrite greedy_score_of_usage. split; [now intros ->|].
  intros u Hu. rewrite Hu.
  unfold RefineLB.get_node_resource_usage in Hu.
  destruct (Resources.parse_cpu _) as [ca|]; [|discriminate].
  destruct (Resources.parse_memory _) as [ma|]; [|discriminate].
  cbn [bind_outcome] in Hu.
  destruct (K8s.pods_usage (K8s.list_pods_on_node cl (K8s.node_name node)) (0, 0))
    as [[cu mu]|] eqn:Eused; [|discriminate].
  cbn in Hu. injection Hu as <-.
  cbn [RefineLB.cpu_available RefineLB.memory_available RefineLB.cpu_allocatable
         RefineLB.memory_allocatable RefineLB.cpu_utilization
         RefineLB.memory_utilization RefineLB.cpu_used RefineLB.memory_used fst snd].
  assert (general : 1 <= ca -> 1 <= ma ->
    (ca - cu) / Py.max ca 1 * 70 + (ma - mu) / Py.max ma 1 * 30
    == 100 - (0.7 * (cu / Py.max ca 1 * 100) + 0.3 * (mu / Py.max ma 1 * 100))).
  { intros H1 H2. rewrite (available_ratio ca cu H1), (available_ratio ma mu H2). ring. }
  split; [exact general|]. split.
  - intros H1 H2 Hnone. rewrite (general H1 H2).
    rewrite Hnone in Eused. cbn in Eused. injection Eused as <- <-.
    unfold Qdiv. ring.
  - intros Hc Hm.
    pose proof (ratio_le_1 (ca - cu) ca cu eq_refl Hc).
    pose proof (ratio_le_1 (ma - mu) ma mu eq_refl Hm). lra.
Qed.

Lemma greedy_score_and_usage_witness :
  GreedyLB.calculate_node_score Scenario.cluster_abcd Scenario.node_b == 100.
Proof.
  destruct (RefineLB.get_node_resource_usage Scenario.cluster_abcd Scenario.node_b)
    as [u|] eqn:Hu; [|vm_compute in Hu; discriminate].
  destruct (greedy_score_and_usage Scenario.cluster_abcd Scenario.node_b) as [_ H].
  destruct (H u Hu) as (_ & idle & _).
  assert (Eu : Some u = RefineLB.get_node_resource_usage
                          Scenario.cluster_abcd Scenario.node_b) by (now rewrite Hu).
  vm_compute in Eu. injection Eu as ->.
  apply idle; [vm_compute; discriminate | vm_compute; discriminate | reflexivity].
Defined.

(** ** The request of a pod is never zero *)

Section RequestDefaults.
Import K8s.

Lemma add_requests_none (d1 d2 : string) (cs : list Container) (acc : Q * Q) :
  (forall c, In c cs -> truthy_requests c = None) ->
  add_requests d1 d2 cs acc = Returned acc.
Proof.
  revert acc. induction cs as [|c cs IH]; intros acc H; [reflexivity|].
  cbn [add_requests]. rewrite (H c (or_introl eq_refl)).
  apply IH. intros c' Hc'. apply H. now right.
Qed.

End RequestDefaults.

(** X15.  RefineLB never works with a zero request: whenever the request of
    a pod can be read, its CPU and its memory are both different from 0.  A
    pod without containers, or whose containers declare no non-empty
    requests map, gets exactly 100 millicores and 128*1024*1024 bytes. *)
Theorem pod_request_never_zero (pod : K8s.Pod) :
  (forall req,
      RefineLB.get_pod_resource_requests pod = Returned req ->
      ~ RefineLB.cpu req == 0 /\ ~ RefineLB.memory req == 0) /\
  ((forall c, In c (K8s.containers_of pod) -> K8s.truthy_requests c = None) ->
   RefineLB.get_pod_resource_requests pod
   = Returned {| RefineLB.cpu := 100; RefineLB.memory := 128 * 1024 * 1024 |}).
Proof.
  unfold RefineLB.get_pod_resource_requests. split.
  - intros req. destruct (K8s.add_requests _ _ _ _) as [[c m]|]; [|discriminate].
    cbn [bind_outcome fst snd]. intros H. injection H as <-.
    cbn [RefineLB.cpu RefineLB.memory]. unfold Py.eq. split.
    + destruct (Qeq_bool c 0) eqn:E; [discriminate|]. now apply Qeq_bool_neq.
    + destruct (Qeq_bool m 0) eqn:E; [discriminate|]. now apply Qeq_bool_neq.
  - intros H. now rewrite (add_requests_none _ _ _ _ H).
Qed.

Lemma pod_request_never_zero_witness :
  RefineLB.get_pod_resource_requests (Scenario.pending "bare" [])
  = Returned {| RefineLB.cpu := 100; RefineLB.memory := 128 * 1024 * 1024 |}.
Proof.
  apply (pod_request_never_zero (Scenario.pending "bare" [])).
  intros c [].
Defined.

(** ** Which pods a node is charged for *)

Section Accounting.
Import K8s.

Lemma on_node_iff (node : Node) (pod : Pod) :
  on_node (node_name node) pod = true <-> Derived.counted_on node pod.
Proof.
  unfold on_node, Derived.counted_on.
  destruct (pod_node_name pod) as [n|]; [|split; [discriminate | intros [H _]; discriminate]].
  rewrite !andb_true_iff, !negb_true_iff. split.
  - intros [[H1 H2] H3]. apply String.eqb_eq in H1. subst n.
    repeat split; intros E; rewrite E in *; discriminate.
  - intros (E & H2 & H3). injection E as ->. rewrite String.eqb_refl.
    repeat split; apply String.eqb_neq; assumption.
Qed.

Lemma list_pods_with_pod (cl : Cluster) (pod : Pod) (name : string) :
  list_pods_on_node (Derived.with_pod cl pod) name
  = list_pods_on_node cl name ++ (if on_node name pod then [pod] else []).
Proof.
  unfold list_pods_on_node. cbn [Derived.with_pod pods].
  now rewrite List.filter_app.
Qed.

(** Adding the requests of containers moves the sums by the same amounts,
    whatever the sums were. *)
Lemma add_requests_shift (d1 d2 : string) (cs : list Container) (acc acc0 r0 : Q * Q) :
  add_requests d1 d2 cs acc0 = Returned r0 ->
  exists r, add_requests d1 d2 cs acc = Returned r
            /\ fst r - fst acc == fst r0 - fst acc0
            /\ snd r - snd acc == snd r0 - snd acc0.
Proof.
  revert acc acc0. induction cs as [|c cs IH]; intros acc acc0.
  - cbn. intros H. injection H as <-. exists acc. split; [reflexivity|]. split; ring.
  - cbn [add_requests]. destruct (truthy_requests c) as [req|]; [|apply IH].
    destruct (Resources.parse_cpu _) as [x|]; [|discriminate].
    destruct (Resources.parse_memory _) as [y|]; [|discriminate].
    cbn [bind_outcome]. intros H.
    destruct (IH (fst acc + x, snd acc + y) _ H) as (r & Hr & H1 & H2).
    exists r. split; [exact Hr|]. cbn [fst snd] in H1, H2. split; lra.
Qed.

Lemma pods_usage_app (ps qs : list Pod) (acc : Q * Q) :
  pods_usage (ps ++ qs) acc = let* mid := pods_usage ps acc in pods_usage qs mid.
Proof.
  revert acc. induction ps as [|p ps IH]; intros acc; [reflexivity|].
  cbn [app pods_usage]. destruct (add_requests _ _ _ _) as [acc'|]; [|reflexivity].
  cbn [bind_outcome]. apply IH.
Qed.

End Accounting.

(** X16.  A node is charged for the pods assigned to it whose phase is
    neither Failed nor Succeeded, and for no other.  One more pod that is
    not such a pod (an unassigned pending pod, a pod of another node, a
    finished pod) changes neither the usage of the node nor its greedy or
    refined score.  One more pod that is such a pod and whose declared
    requests sum to [c] millicores and [m] bytes raises the used CPU by [c],
    the used memory by [m] and the pod count by 1, and leaves the
    allocatable amounts alone. *)
Theorem node_charged_for_its_pods (cl : K8s.Cluster) (node : K8s.Node) (pod : K8s.Pod) :
  let cl' := Derived.with_pod cl pod in
  (~ Derived.counted_on node pod ->
   RefineLB.get_node_resource_usage cl' node = RefineLB.get_node_resource_usage cl node /\
   GreedyLB.calculate_node_score cl' node = GreedyLB.calculate_node_score cl node /\
   forall req all,
     RefineLB.calculate_refined_score cl' node req all
     = RefineLB.calculate_refined_score cl node req all) /\
  (Derived.counted_on node pod ->
   forall u c m,
     RefineLB.get_node_resource_usage cl node = Some u ->
     K8s.add_requests "0" "0" (K8s.containers_of pod) (0, 0) = Returned (c, m) ->
     exists u',
       RefineLB.get_node_resource_usage cl' node = Some u' /\
       RefineLB.cpu_used u' == RefineLB.cpu_used u + c /\
       RefineLB.memory_used u' == RefineLB.memory_used u + m /\
       RefineLB.cpu_available u' == RefineLB.cpu_available u - c /\
       RefineLB.memory_available u' == RefineLB.memory_available u - m /\
       RefineLB.pod_count u' == RefineLB.pod_count u + 1 /\
       RefineLB.cpu_allocatable u' = RefineLB.cpu_allocatable u /\
       RefineLB.memory_allocatable u' = RefineLB.memory_allocatable u).
Proof.
  cbv zeta. split.
  - intros Hnot.
    assert (E : K8s.list_pods_on_node (Derived.with_pod cl pod) (K8s.node_name node)
                = K8s.list_pods_on_node cl (K8s.node_name node)).
    { rewrite list_pods_with_pod.
      destruct (K8s.on_node (K8s.node_name node) pod) eqn:Eon;
        [apply on_node_iff in Eon; contradiction | apply app_nil_r]. }
    assert (Eu : RefineLB.get_node_resource_usage (Derived.with_pod cl pod) node
                 = RefineLB.get_node_resource_usage cl node)
      by (unfold RefineLB.get_node_resource_usage; now rewrite E).
    split; [exact Eu|]. split.
    + unfold GreedyLB.calculate_node_score. now rewrite E.
    + intros req all. unfold RefineLB.calculate_refined_score. now rewrite Eu.
  - intros Hon u c m Hu Hpod.
    apply on_node_iff in Hon.
    unfold RefineLB.get_node_resource_usage in *. rewrite list_pods_with_pod, Hon.
    destruct (Resources.parse_cpu _) as [ca|]; [|discriminate].
    destruct (Resources.parse_memory _) as [ma|]; [|discriminate].
    cbn [bind_outcome] in *.
    rewrite pods_usage_app.
    destruct (K8s.pods_usage (K8s.list_pods_on_node cl (K8s.node_name node)) (0, 0))
      as [[cu mu]|]; [|discriminate].
    cbn in Hu. injection Hu as <-.
    cbn [bind_outcome K8s.pods_usage].
    destruct (add_requests_shift "0" "0" (K8s.containers_of pod) (cu, mu) (0, 0) (c, m) Hpod)
      as ([cu' mu'] & Er & H1 & H2).
    rewrite Er. cbn [bind_outcome except_return fst snd] in *.
    eexists. split; [reflexivity|].
    cbn [RefineLB.cpu_used RefineLB.memory_used RefineLB.cpu_available
           RefineLB.memory_available RefineLB.pod_count RefineLB.cpu_allocatable
           RefineLB.memory_allocatable].
    repeat split; try lra.
    unfold Py.len. rewrite length_app. cbn [length].
    rewrite Nat2Z.inj_add, inject_Z_plus. reflexivity.
Qed.

Lemma node_charged_for_its_pods_witness :
  GreedyLB.calculate_node_score
    (Derived.with_pod Scenario.cluster_abcd Scenario.small_pod) Scenario.node_a
  = GreedyLB.calculate_node_score Scenario.cluster_abcd Scenario.node_a /\
  exists u', RefineLB.get_node_resource_usage
               (Derived.with_pod Scenario.cluster_abcd Scenario.hog) Scenario.node_full
             = Some u' /\ RefineLB.cpu_used u' == 1000.
Proof.
  split.
  - apply (node_charged_for_its_pods Scenario.cluster_abcd Scenario.node_a Scenario.small_pod).
    intros [H _]. discriminate.
  - destruct (node_charged_for_its_pods
                Scenario.cluster_abcd Scenario.node_full Scenario.hog) as [_ H].
    destruct (RefineLB.get_node_resource_usage Scenario.cluster_abcd Scenario.node_full)
      as [u|] eqn:Hu; [|vm_compute in Hu; discriminate].
    destruct (H ltac:(repeat split; discriminate) u 1000 1073741824 eq_refl)
      as (u' & Hu' & Hc & _).
    + vm_compute. reflexivity.
    + exists u'. split; [exact Hu'|]. rewrite Hc.
      assert (Eu : Some u = RefineLB.get_node_resource_usage
                              Scenario.cluster_abcd Scenario.node_full)
        by (now rewrite Hu).
      vm_compute in Eu. injection Eu as ->. reflexivity.
Defined.

(** ** One event of the watch stream *)

Section WatchEvent.
Import K8s.

Lemma wants_scheduling_true (event : Watch.Event) :
  Watch.wants_scheduling event = true ->
  (Watch.event_type event = "ADDED" \/ Watch.event_type event = "MODIFIED") /\
  phase (Watch.event_object event) = "Pending" /\
  pod_node_name (Watch.event_object event) = None.
Proof.
  unfold Watch.wants_scheduling. rewrite !andb_true_iff, orb_true_iff.
  intros [Ht [Hp Hn]]. split; [|split].
  - destruct Ht as [H|H]; apply String.eqb_eq in H; auto.
  - now apply String.eqb_eq in Hp.
  - now destruct (pod_node_name (Watch.event_object event)).
Qed.

Lemma greedy_binding (accepts : Binding -> bool) (cl : Cluster) (pod : Pod) (b : Binding) :
  snd (GreedyLB.schedule_pod accepts cl pod) = Some b ->
  binding_pod b = pod_name pod /\ binding_namespace b = pod_namespace pod /\
  fst (GreedyLB.schedule_pod accepts cl pod) = accepts b /\
  exists node, In node (get_schedulable_nodes cl) /\ binding_target b = node_name node.
Proof.
  unfold GreedyLB.schedule_pod.
  destruct (get_schedulable_nodes cl) as [|n0 ns] eqn:Ec; [discriminate|].
  destruct (GreedyLB.select_best_node cl (n0 :: ns)) as [sel|] eqn:Es; [|discriminate].
  cbn. intros H. injection H as <-. cbn. repeat split.
  exists sel. split; [now apply greedy_select_in in Es | reflexivity].
Qed.

Lemma refine_binding (accepts : Binding -> bool) (cl : Cluster) (pod : Pod)
    (r : bool * option Binding) (b : Binding) :
  RefineLB.schedule_pod accepts cl pod = Returned r -> snd r = Some b ->
  binding_pod b = pod_name pod /\ binding_namespace b = pod_namespace pod /\
  fst r = accepts b /\
  exists node, In node (get_schedulable_nodes cl) /\ binding_target b = node_name node.
Proof.
  unfold RefineLB.schedule_pod.
  destruct (get_schedulable_nodes cl) as [|n0 ns] eqn:Ec;
    [intros H; injection H as <-; discriminate|].
  destruct (RefineLB.select_best_node cl (n0 :: ns) pod) as [[sel|]|] eqn:Es;
    cbn [bind_outcome]; [| intros H; injection H as <-; discriminate | discriminate].
  intros H. injection H as <-. cbn. intros H. injection H as <-. cbn. repeat split.
  exists sel. split; [|reflexivity].
  apply refine_select_scored in Es as (_ & _ & Hin & _). exact Hin.
Qed.

End WatchEvent.

(** X17.  A placer posts a binding for an event of its watch stream only
    when the event is ADDED or MODIFIED and its pod is Pending with no node
    assigned; the binding then names that pod and its namespace and targets
    one of the schedulable nodes.  [schedule_pod] returns true exactly when
    it posted a binding and the server accepted it. *)
Theorem binding_per_watch_event
    (accepts : K8s.Binding -> bool) (cl : K8s.Cluster) (event : Watch.Event) :
  let pod := Watch.event_object event in
  (forall b,
      Watch.greedy_on_event accepts cl event = Some b \/
      Watch.refine_on_event accepts cl event = Returned (Some b) ->
      (Watch.event_type event = "ADDED" \/ Watch.event_type event = "MODIFIED") /\
      K8s.phase pod = "Pending" /\ K8s.pod_node_name pod = None /\
      K8s.binding_pod b = K8s.pod_name pod /\
      K8s.binding_namespace b = K8s.pod_namespace pod /\
      exists node, In node (K8s.get_schedulable_nodes cl)
                   /\ K8s.binding_target b = K8s.node_name node) /\
  fst (GreedyLB.schedule_pod accepts cl pod)
  = match snd (GreedyLB.schedule_pod accepts cl pod) with
    | Some b => accepts b
    | None => false
    end /\
  (forall r, RefineLB.schedule_pod accepts cl pod = Returned r ->
             fst r = match snd r with Some b => accepts b | None => false end).
Proof.
  cbv zeta. split; [|split].
  - intros b H.
    assert (W : Watch.wants_scheduling event = true).
    { unfold Watch.greedy_on_event, Watch.refine_on_event in H.
      destruct (Watch.wants_scheduling event); [reflexivity|].
      destruct H as [H|H]; discriminate. }
    destruct (wants_scheduling_true event W) as (Ht & Hp & Hn).
    split; [exact Ht|]. split; [exact Hp|]. split; [exact Hn|].
    unfold Watch.greedy_on_event, Watch.refine_on_event in H. rewrite W in H.
    destruct H as [H|H].
    + destruct (greedy_binding accepts cl _ b H) as (? & ? & _ & ?). auto.
    + destruct (RefineLB.schedule_pod accepts cl (Watch.event_object event))
        as [r|] eqn:Er; [|discriminate].
      cbn [bind_outcome] in H. injection H as H.
      destruct (refine_binding accepts cl _ r b Er H) as (? & ? & _ & ?). auto.
  - destruct (snd (GreedyLB.schedule_pod accepts cl (Watch.event_object event)))
      as [b|] eqn:Eb.
    + now destruct (greedy_binding accepts cl _ b Eb) as (_ & _ & ? & _).
    + unfold GreedyLB.schedule_pod in *.
      destruct (K8s.get_schedulable_nodes cl); [reflexivity|].
      destruct (GreedyLB.select_best_node cl _); [discriminate | reflexivity].
  - intros r Hr. destruct (snd r) as [b|] eqn:Eb.
    + now destruct (refine_binding accepts cl _ r b Hr Eb) as (_ & _ & ? & _).
    + unfold RefineLB.schedule_pod in Hr.
      destruct (K8s.get_schedulable_nodes cl); [now injection Hr as <-|].
      destruct (RefineLB.select_best_node cl _ _) as [[sel|]|];
        cbn [bind_outcome] in Hr; [|now injection Hr as <- | discriminate].
      injection Hr as <-. discriminate.
Qed.

Lemma binding_per_watch_event_witness :
  K8s.binding_pod
    {| K8s.binding_namespace := "default"; K8s.binding_pod := "small";
       K8s.binding_target := "node-a" |}
  = K8s.pod_name Scenario.small_pod.
Proof.
  destruct (binding_per_watch_event Scenario.accepting Scenario.cluster_abcd
              {| Watch.event_type := "ADDED"; Watch.event_object := Scenario.small_pod |})
    as [H _].
  destruct (H {| K8s.binding_namespace := "default"; K8s.binding_pod := "small";
                 K8s.binding_target := "node-a" |}) as (_ & _ & _ & name & _).
  - left. vm_compute. reflexivity.
  - exact name.
Defined.
